(** * music_slower: the playback timeline engine, embedded and verified

    The repository is a browser audio player that exists in three
    near-duplicate variants of one script:

    - [Scrub]  : the slider variant whose canvas click scrubs
                 (the file with [handleScrub]);
    - [Drag]   : the knob variant with a draggable seek slider and the
                 remote loader (first script of the knob file);
    - [Knob]   : the knob variant with a plain seek slider
                 (second script of the knob file).

    JavaScript numbers are idealised as exact rationals [Q]: every
    statement below is about the arithmetic the code writes down, not
    about binary64 rounding.  [audioCtx.currentTime] is constant during
    one synchronous event handler; it is the parameter [now] of every
    operation that reads it.  Cosmetic DOM effects (icons, text of the
    speed and reverb labels, the disabled flags, the loading overlay)
    are left out; the canvas is kept as the list of drawing commands
    issued on its 2D context. *)

From Stdlib Require Import QArith Qround Lqa Lia ZArith Bool String List.
Import ListNotations.
Open Scope Q_scope.

(** ** Comparisons of JavaScript numbers *)

Definition Qgtb (x y : Q) : bool := negb (Qle_bool x y).
Definition Qltb (x y : Q) : bool := negb (Qle_bool y x).

Definition ofNat (n : nat) : Q := inject_Z (Z.of_nat n).

(** ** Outcome of running a handler

    [TypeError] is the exception JavaScript raises when a property of
    [null] is read or a node is connected to [null]; the handler is then
    abandoned.  [OutOfFuel] exists only for the recursion between
    [getCurrentTime], [stopAudio] and [drawWaveform] of the [Scrub]
    variant, and is shown never to be returned. *)

Inductive outcome (A : Type) : Type :=
| Ok (a : A)
| TypeError
| OutOfFuel.

Arguments Ok {A} a.
Arguments TypeError {A}.
Arguments OutOfFuel {A}.

Definition bind {A B : Type} (m : outcome A) (k : A -> outcome B) : outcome B :=
  match m with
  | Ok a => k a
  | TypeError => TypeError
  | OutOfFuel => OutOfFuel
  end.

Notation "x <- m ;; k" := (bind m (fun x => k))
  (at level 61, m at next level, right associativity).
Notation "' p <- m ;; k" := (bind m (fun p => k))
  (at level 61, p pattern, m at next level, right associativity).

(** ** Data model *)

Record AudioBuffer : Type := {
  duration : Q;               (* audioBuffer.duration, seconds *)
  channelData0 : list Q       (* audioBuffer.getChannelData(0) *)
}.

Record SourceNode : Type := {
  src_rate : Q;               (* sourceNode.playbackRate *)
  src_offset : Q              (* offset given to sourceNode.start(0, offset) *)
}.

Record GainNode : Type := { gain : Q }.

Inductive CanvasCmd : Type :=
| ClearRect (x y w h : Q)
| BeginPath
| StrokeStyle (colour : string)
| LineWidth (w : Q)
| MoveTo (x y : Q)
| LineTo (x y : Q)
| Stroke
| FillStyle (colour : string)
| FillRect (x y w h : Q).

Record State : Type := {
  audioBuffer : option AudioBuffer;
  sourceNode : option SourceNode;
  gainNode : option GainNode;
  reverbNode : option unit;
  dryNode : option GainNode;
  wetNode : option GainNode;
  isPlaying : bool;
  startTime : Q;
  pausedAt : Q;
  playbackRate : Q;
  reverbAmount : Q;
  wasPlaying : bool;
  canvasWidth : nat;
  canvasHeight : nat;
  ctx : list CanvasCmd;           (* commands issued, oldest first *)
  currentTimeDisplay : Z * Z;     (* minutes and seconds shown as m:ss *)
  seekSliderValue : Q
}.

Definition set_audioBuffer (v : option AudioBuffer) (s : State) : State :=
  {| audioBuffer := v; sourceNode := sourceNode s; gainNode := gainNode s;
     reverbNode := reverbNode s; dryNode := dryNode s; wetNode := wetNode s;
     isPlaying := isPlaying s; startTime := startTime s; pausedAt := pausedAt s;
     playbackRate := playbackRate s; reverbAmount := reverbAmount s;
     wasPlaying := wasPlaying s; canvasWidth := canvasWidth s;
     canvasHeight := canvasHeight s; ctx := ctx s;
     currentTimeDisplay := currentTimeDisplay s;
     seekSliderValue := seekSliderValue s |}.

Definition set_sourceNode (v : option SourceNode) (s : State) : State :=
  {| audioBuffer := audioBuffer s; sourceNode := v; gainNode := gainNode s;
     reverbNode := reverbNode s; dryNode := dryNode s; wetNode := wetNode s;
     isPlaying := isPlaying s; startTime := startTime s; pausedAt := pausedAt s;
     playbackRate := playbackRate s; reverbAmount := reverbAmount s;
     wasPlaying := wasPlaying s; canvasWidth := canvasWidth s;
     canvasHeight := canvasHeight s; ctx := ctx s;
     currentTimeDisplay := currentTimeDisplay s;
     seekSliderValue := seekSliderValue s |}.

Definition set_nodes (g : option GainNode) (r : option unit)
    (d w : option GainNode) (s : State) : State :=
  {| audioBuffer := audioBuffer s; sourceNode := sourceNode s; gainNode := g;
     reverbNode := r; dryNode := d; wetNode := w;
     isPlaying := isPlaying s; startTime := startTime s; pausedAt := pausedAt s;
     playbackRate := playbackRate s; reverbAmount := reverbAmount s;
     wasPlaying := wasPlaying s; canvasWidth := canvasWidth s;
     canvasHeight := canvasHeight s; ctx := ctx s;
     currentTimeDisplay := currentTimeDisplay s;
     seekSliderValue := seekSliderValue s |}.

Definition set_isPlaying (v : bool) (s : State) : State :=
  {| audioBuffer := audioBuffer s; sourceNode := sourceNode s; gainNode := gainNode s;
     reverbNode := reverbNode s; dryNode := dryNode s; wetNode := wetNode s;
     isPlaying := v; startTime := startTime s; pausedAt := pausedAt s;
     playbackRate := playbackRate s; reverbAmount := reverbAmount s;
     wasPlaying := wasPlaying s; canvasWidth := canvasWidth s;
     canvasHeight := canvasHeight s; ctx := ctx s;
     currentTimeDisplay := currentTimeDisplay s;
     seekSliderValue := seekSliderValue s |}.

Definition set_startTime (v : Q) (s : State) : State :=
  {| audioBuffer := audioBuffer s; sourceNode := sourceNode s; gainNode := gainNode s;
     reverbNode := reverbNode s; dryNode := dryNode s; wetNode := wetNode s;
     isPlaying := isPlaying s; startTime := v; pausedAt := pausedAt s;
     playbackRate := playbackRate s; reverbAmount := reverbAmount s;
     wasPlaying := wasPlaying s; canvasWidth := canvasWidth s;
     canvasHeight := canvasHeight s; ctx := ctx s;
     currentTimeDisplay := currentTimeDisplay s;
     seekSliderValue := seekSliderValue s |}.

Definition set_pausedAt (v : Q) (s : State) : State :=
  {| audioBuffer := audioBuffer s; sourceNode := sourceNode s; gainNode := gainNode s;
     reverbNode := reverbNode s; dryNode := dryNode s; wetNode := wetNode s;
     isPlaying := isPlaying s; startTime := startTime s; pausedAt := v;
     playbackRate := playbackRate s; reverbAmount := reverbAmount s;
     wasPlaying := wasPlaying s; canvasWidth := canvasWidth s;
     canvasHeight := canvasHeight s; ctx := ctx s;
     currentTimeDisplay := currentTimeDisplay s;
     seekSliderValue := seekSliderValue s |}.

Definition set_playbackRate (v : Q) (s : State) : State :=
  {| audioBuffer := audioBuffer s; sourceNode := sourceNode s; gainNode := gainNode s;
     reverbNode := reverbNode s; dryNode := dryNode s; wetNode := wetNode s;
     isPlaying := isPlaying s; startTime := startTime s; pausedAt := pausedAt s;
     playbackRate := v; reverbAmount := reverbAmount s;
     wasPlaying := wasPlaying s; canvasWidth := canvasWidth s;
     canvasHeight := canvasHeight s; ctx := ctx s;
     currentTimeDisplay := currentTimeDisplay s;
     seekSliderValue := seekSliderValue s |}.

Definition set_reverbAmount (v : Q) (s : State) : State :=
  {| audioBuffer := audioBuffer s; sourceNode := sourceNode s; gainNode := gainNode s;
     reverbNode := reverbNode s; dryNode := dryNode s; wetNode := wetNode s;
     isPlaying := isPlaying s; startTime := startTime s; pausedAt := pausedAt s;
     playbackRate := playbackRate s; reverbAmount := v;
     wasPlaying := wasPlaying s; canvasWidth := canvasWidth s;
     canvasHeight := canvasHeight s; ctx := ctx s;
     currentTimeDisplay := currentTimeDisplay s;
     seekSliderValue := seekSliderValue s |}.

Definition set_wasPlaying (v : bool) (s : State) : State :=
  {| audioBuffer := audioBuffer s; sourceNode := sourceNode s; gainNode := gainNode s;
     reverbNode := reverbNode s; dryNode := dryNode s; wetNode := wetNode s;
     isPlaying := isPlaying s; startTime := startTime s; pausedAt := pausedAt s;
     playbackRate := playbackRate s; reverbAmount := reverbAmount s;
     wasPlaying := v; canvasWidth := canvasWidth s;
     canvasHeight := canvasHeight s; ctx := ctx s;
     currentTimeDisplay := currentTimeDisplay s;
     seekSliderValue := seekSliderValue s |}.

Definition set_canvasSize (w h : nat) (s : State) : State :=
  {| audioBuffer := audioBuffer s; sourceNode := sourceNode s; gainNode := gainNode s;
     reverbNode := reverbNode s; dryNode := dryNode s; wetNode := wetNode s;
     isPlaying := isPlaying s; startTime := startTime s; pausedAt := pausedAt s;
     playbackRate := playbackRate s; reverbAmount := reverbAmount s;
     wasPlaying := wasPlaying s; canvasWidth := w;
     canvasHeight := h; ctx := ctx s;
     currentTimeDisplay := currentTimeDisplay s;
     seekSliderValue := seekSliderValue s |}.

Definition set_ctx (v : list CanvasCmd) (s : State) : State :=
  {| audioBuffer := audioBuffer s; sourceNode := sourceNode s; gainNode := gainNode s;
     reverbNode := reverbNode s; dryNode := dryNode s; wetNode := wetNode s;
     isPlaying := isPlaying s; startTime := startTime s; pausedAt := pausedAt s;
     playbackRate := playbackRate s; reverbAmount := reverbAmount s;
     wasPlaying := wasPlaying s; canvasWidth := canvasWidth s;
     canvasHeight := canvasHeight s; ctx := v;
     currentTimeDisplay := currentTimeDisplay s;
     seekSliderValue := seekSliderValue s |}.

Definition set_currentTimeDisplay (v : Z * Z) (s : State) : State :=
  {| audioBuffer := audioBuffer s; sourceNode := sourceNode s; gainNode := gainNode s;
     reverbNode := reverbNode s; dryNode := dryNode s; wetNode := wetNode s;
     isPlaying := isPlaying s; startTime := startTime s; pausedAt := pausedAt s;
     playbackRate := playbackRate s; reverbAmount := reverbAmount s;
     wasPlaying := wasPlaying s; canvasWidth := canvasWidth s;
     canvasHeight := canvasHeight s; ctx := ctx s;
     currentTimeDisplay := v;
     seekSliderValue := seekSliderValue s |}.

Definition set_seekSliderValue (v : Q) (s : State) : State :=
  {| audioBuffer := audioBuffer s; sourceNode := sourceNode s; gainNode := gainNode s;
     reverbNode := reverbNode s; dryNode := dryNode s; wetNode := wetNode s;
     isPlaying := isPlaying s; startTime := startTime s; pausedAt := pausedAt s;
     playbackRate := playbackRate s; reverbAmount := reverbAmount s;
     wasPlaying := wasPlaying s; canvasWidth := canvasWidth s;
     canvasHeight := canvasHeight s; ctx := ctx s;
     currentTimeDisplay := currentTimeDisplay s;
     seekSliderValue := v |}.

(** The script's initial bindings ([let isPlaying = false], ...), on a
    canvas of the given size. *)
Definition initialState (w h : nat) : State :=
  {| audioBuffer := None; sourceNode := None; gainNode := None;
     reverbNode := None; dryNode := None; wetNode := None;
     isPlaying := false; startTime := 0; pausedAt := 0;
     playbackRate := 1; reverbAmount := 0; wasPlaying := false;
     canvasWidth := w; canvasHeight := h; ctx := [];
     currentTimeDisplay := (0%Z, 0%Z); seekSliderValue := 0 |}.

(** ** Operations shared by the three variants *)

(** [formatTime]: [Math.floor(seconds / 60)] and
    [Math.floor(seconds % 60)]; the pair stands for the text [m:ss].
    JavaScript's [%] truncates towards zero. *)
Definition Qtrunc (q : Q) : Z := if Qle_bool 0 q then Qfloor q else Qceiling q.
Definition jsRem (a b : Q) : Q := a - b * inject_Z (Qtrunc (a / b)).
Definition formatTime (seconds : Q) : Z * Z :=
  (Qfloor (seconds / 60), Qfloor (jsRem seconds 60)).

(** [updateReverbMix]: returns at once unless both gain nodes exist. *)
Definition updateReverbMix (s : State) : State :=
  match dryNode s, wetNode s with
  | Some _, Some _ =>
      set_nodes (gainNode s) (reverbNode s)
        (Some {| gain := 1 - reverbAmount s |})
        (Some {| gain := reverbAmount s * 2 |}) s
  | _, _ => s
  end.

(** [handleReverbChange]: the argument is the number the widget
    delivers ([parseFloat(e.target.value)] in the slider variant, the
    knob value in the others). *)
Definition handleReverbChange (val : Q) (s : State) : State :=
  updateReverbMix (set_reverbAmount val s).

(** [setupReverb]: creates the convolver and the three gain nodes (a new
    gain node has gain 1), then applies the current mix.  The random
    impulse response is not modelled. *)
Definition setupReverb (s : State) : State :=
  updateReverbMix
    (set_nodes (Some {| gain := 1 |}) (Some tt)
       (Some {| gain := 1 |}) (Some {| gain := 1 |}) s).

(** [internalPause]: stops and drops the source node, nothing else. *)
Definition internalPause (s : State) : State :=
  set_isPlaying false (set_sourceNode None s).

(** The [mousemove] handler of [setupKnob]: the value handed to
    [onChange] for a drag of [deltaY] pixels that started at
    [startValue]. *)
Definition knobValue (min max startValue deltaY : Q) : Q :=
  let sensitivity := (5 # 1000) * (max - min) in
  let newValue := startValue + deltaY * sensitivity in
  let newValue := if Qltb newValue min then min else newValue in
  let newValue := if Qgtb newValue max then max else newValue in
  newValue.

(** *** The envelope loop of [drawWaveform] (identical in all variants) *)

(** [data[idx]]: a typed array yields [undefined] out of range. *)
Definition sampleAt (data : list Q) (idx : nat) : option Q := nth_error data idx.

(** [Math.ceil(data.length / width)].  For [width = 0] JavaScript gives
    [Infinity] or [NaN] and the column loop does not run; here the
    quotient by zero is 0 and the column loop does not run either. *)
Definition stepOf (len width : nat) : nat :=
  Z.to_nat (Qceiling (ofNat len / ofNat width)).

(** One pass of the inner loop body: [if (datum < min) min = datum;
    if (datum > max) max = datum;].  Both comparisons are false for
    [undefined]. *)
Definition scanSample (mm : Q * Q) (datum : option Q) : Q * Q :=
  match datum with
  | Some d =>
      (if Qltb d (fst mm) then d else fst mm,
       if Qgtb d (snd mm) then d else snd mm)
  | None => mm
  end.

(** The inner loop [for (j = 0; j < step; j++)], started from
    [min = 1.0], [max = -1.0]. *)
Definition columnMinMax (data : list Q) (step i : nat) : Q * Q :=
  fold_left (fun mm j => scanSample mm (sampleAt data (i * step + j)))
            (seq 0 step) (1, -(1)).

(** The outer loop [for (i = 0; i < width; i++)]: one [moveTo] and one
    [lineTo] per column. *)
Definition waveformPath (data : list Q) (width height : nat) : list CanvasCmd :=
  let step := stepOf (length data) width in
  let amp := ofNat height / 2 in
  flat_map (fun i =>
              let mm := columnMinMax data step i in
              [MoveTo (ofNat i) ((1 + fst mm) * amp);
               LineTo (ofNat i) ((1 + snd mm) * amp)])
           (seq 0 width).

(** Everything [drawWaveform] issues up to and including [ctx.stroke()]. *)
Definition waveformCmds (data : list Q) (width height : nat) : list CanvasCmd :=
  [ClearRect 0 0 (ofNat width) (ofNat height); BeginPath;
   StrokeStyle "#8b5cf6"; LineWidth 2]
  ++ waveformPath data width height ++ [Stroke].

Definition draw (cmds : list CanvasCmd) (s : State) : State :=
  set_ctx (ctx s ++ cmds) s.

(** ** The slider variant with canvas scrubbing *)

Module Scrub.

Section Handlers.

Variable now : Q.   (* audioCtx.currentTime *)

(** [drawWaveform] reads the position through [getCurrentTime], which
    may call [stopAudio], which calls [drawWaveform]: the knot is tied
    below, with the callee passed in. *)
Definition drawWaveform_with (getCurrentTime : State -> outcome (Q * State))
    (s : State) : outcome State :=
  match audioBuffer s with
  | None => Ok s
  | Some b =>
      let width := canvasWidth s in
      let height := canvasHeight s in
      let s1 := draw (waveformCmds (channelData0 b) width height) s in
      '(currentPos, s2) <- getCurrentTime s1 ;;
      match audioBuffer s2 with
      | None => TypeError
      | Some b2 =>
          let percent := currentPos / duration b2 in
          let x := percent * ofNat width in
          let s3 := draw [FillStyle "#fff"; FillRect x 0 2 (ofNat height)] s2 in
          Ok (set_currentTimeDisplay (formatTime currentPos) s3)
      end
  end.

Definition stopAudio_with (getCurrentTime : State -> outcome (Q * State))
    (s : State) : outcome State :=
  let s := set_sourceNode None s in
  let s := set_isPlaying false s in
  let s := set_pausedAt 0 s in
  let s := set_startTime 0 s in
  drawWaveform_with getCurrentTime s.

Fixpoint getCurrentTime_fuel (fuel : nat) (s : State) : outcome (Q * State) :=
  if negb (isPlaying s) then Ok (pausedAt s, s) else
  match audioBuffer s with
  | None => TypeError
  | Some b =>
      let elapsed := now - startTime s in
      let time := pausedAt s + elapsed * playbackRate s in
      if Qgtb time (duration b) then
        match fuel with
        | O => OutOfFuel
        | S fuel' =>
            s' <- stopAudio_with (getCurrentTime_fuel fuel') s ;;
            Ok (duration b, s')
        end
      else Ok (time, s)
  end.

Definition getCurrentTime : State -> outcome (Q * State) := getCurrentTime_fuel 1.
Definition drawWaveform : State -> outcome State := drawWaveform_with getCurrentTime.
Definition stopAudio : State -> outcome State := stopAudio_with getCurrentTime.

Definition playAudio (s : State) : outcome State :=
  match audioBuffer s with
  | None => Ok s
  | Some _ =>
      match dryNode s, reverbNode s, wetNode s, gainNode s with
      | Some _, Some _, Some _, Some _ =>
          let s := set_sourceNode
                     (Some {| src_rate := playbackRate s; src_offset := pausedAt s |}) s in
          let s := set_startTime (now - pausedAt s) s in
          Ok (set_isPlaying true s)
      | _, _, _, _ => TypeError
      end
  end.

Definition pauseAudio (s : State) : State :=
  let s := set_sourceNode None s in
  let s := set_pausedAt ((now - startTime s) * playbackRate s) s in
  set_isPlaying false s.

Definition togglePlayPause (s : State) : outcome State :=
  if isPlaying s then
    let elapsedWallTime := now - startTime s in
    let s := set_pausedAt (pausedAt s + elapsedWallTime * playbackRate s) s in
    Ok (pauseAudio s)
  else playAudio s.

Definition handleSpeedChange (newRate : Q) (s : State) : outcome State :=
  s <- (if isPlaying s then
          '(currentBufferTime, s) <- getCurrentTime s ;;
          let s := set_pausedAt currentBufferTime s in
          let s := set_startTime now s in
          Ok (match sourceNode s with
              | Some n =>
                  set_sourceNode
                    (Some {| src_rate := newRate; src_offset := src_offset n |}) s
              | None => s
              end)
        else Ok s) ;;
  Ok (set_playbackRate newRate s).

(** [handleScrub]: [x] is [e.clientX - rect.left], [width] is
    [rect.width]. *)
Definition handleScrub (x width : Q) (s : State) : outcome State :=
  match audioBuffer s with
  | None => Ok s
  | Some b =>
      let clickPercent := x / width in
      let seekTime := clickPercent * duration b in
      if isPlaying s then
        let s := internalPause s in
        let s := set_pausedAt seekTime s in
        playAudio s
      else
        let s := set_pausedAt seekTime s in
        drawWaveform s
  end.

Definition updateProgress (s : State) : outcome State :=
  if negb (isPlaying s) then Ok s else drawWaveform s.



(** ... and after the decoder has delivered the buffer. *)
Definition handleFileUpload_decoded (b : AudioBuffer) (s : State) : outcome State :=
  let s := set_audioBuffer (Some b) s in
  let s := setupReverb s in
  drawWaveform s.

End Handlers.

End Scrub.

(** ** The knob variant with a draggable seek slider *)

Module Drag.

Section Handlers.

Variable now : Q.

Definition drawWaveform (s : State) : State :=
  match audioBuffer s with
  | None => s
  | Some b => draw (waveformCmds (channelData0 b) (canvasWidth s) (canvasHeight s)) s
  end.

Definition playAudio (s : State) : outcome State :=
  match audioBuffer s with
  | None => Ok s
  | Some _ =>
      match dryNode s, reverbNode s, wetNode s, gainNode s with
      | Some _, Some _, Some _, Some _ =>
          let s := set_sourceNode
                     (Some {| src_rate := playbackRate s; src_offset := pausedAt s |}) s in
          let s := set_startTime (now - pausedAt s / playbackRate s) s in
          let s := set_startTime now s in
          Ok (set_isPlaying true s)
      | _, _, _, _ => TypeError
      end
  end.

Definition pauseAudio (s : State) : outcome State :=
  let s := set_sourceNode None s in
  let elapsedWallTime := now - startTime s in
  let s := set_pausedAt (pausedAt s + elapsedWallTime * playbackRate s) s in
  match audioBuffer s with
  | None => TypeError
  | Some b =>
      let s := if Qgtb (pausedAt s) (duration b)
               then set_pausedAt (duration b) s else s in
      Ok (set_isPlaying false s)
  end.

Definition stopAudio (s : State) : State :=
  let s := set_sourceNode None s in
  let s := set_isPlaying false s in
  let s := set_pausedAt 0 s in
  let s := set_startTime 0 s in
  let s := set_seekSliderValue 0 s in
  drawWaveform s.

Definition togglePlayPause (s : State) : outcome State :=
  if isPlaying s then pauseAudio s else playAudio s.

Definition getCurrentTime (s : State) : outcome (Q * State) :=
  if negb (isPlaying s) then Ok (pausedAt s, s) else
  match audioBuffer s with
  | None => TypeError
  | Some b =>
      let elapsed := now - startTime s in
      let time := pausedAt s + elapsed * playbackRate s in
      if Qgtb time (duration b) then Ok (duration b, stopAudio s)
      else Ok (time, s)
  end.

Definition handleSpeedChange (val : Q) (s : State) : outcome State :=
  let newRate := val in
  s <- (if isPlaying s then
          '(currentBufferTime, s) <- getCurrentTime s ;;
          let s := set_pausedAt currentBufferTime s in
          let s := set_startTime now s in
          Ok (match sourceNode s with
              | Some n =>
                  set_sourceNode
                    (Some {| src_rate := newRate; src_offset := src_offset n |}) s
              | None => s
              end)
        else Ok s) ;;
  Ok (set_playbackRate newRate s).

Definition handleSeekStart (s : State) : State :=
  if isPlaying s then internalPause (set_wasPlaying true s) else s.

Definition handleSeek (seekTime : Q) (s : State) : State :=
  match audioBuffer s with
  | None => s
  | Some _ =>
      let s := set_pausedAt seekTime s in
      set_currentTimeDisplay (formatTime seekTime) s
  end.

Definition handleSeekEnd (s : State) : outcome State :=
  if wasPlaying s then
    s <- playAudio s ;; Ok (set_wasPlaying false s)
  else Ok s.

Definition updateProgress (s : State) : outcome State :=
  if negb (isPlaying s) then Ok s else
  '(currentPos, s) <- getCurrentTime s ;;
  let s := set_seekSliderValue currentPos s in
  Ok (set_currentTimeDisplay (formatTime currentPos) s).

End Handlers.

End Drag.

(** ** The knob variant with a plain seek slider *)

Module Knob.

Section Handlers.

Variable now : Q.

Definition drawWaveform (s : State) : State :=
  match audioBuffer s with
  | None => s
  | Some b => draw (waveformCmds (channelData0 b) (canvasWidth s) (canvasHeight s)) s
  end.

Definition playAudio (s : State) : outcome State :=
  match audioBuffer s with
  | None => Ok s
  | Some _ =>
      match dryNode s, reverbNode s, wetNode s, gainNode s with
      | Some _, Some _, Some _, Some _ =>
          let s := set_sourceNode
                     (Some {| src_rate := playbackRate s; src_offset := pausedAt s |}) s in
          let s := set_startTime (now - pausedAt s) s in
          Ok (set_isPlaying true s)
      | _, _, _, _ => TypeError
      end
  end.

Definition pauseAudio (s : State) : State :=
  let s := set_sourceNode None s in
  let s := set_pausedAt ((now - startTime s) * playbackRate s) s in
  set_isPlaying false s.

Definition stopAudio (s : State) : State :=
  let s := set_sourceNode None s in
  let s := set_isPlaying false s in
  let s := set_pausedAt 0 s in
  let s := set_startTime 0 s in
  let s := set_seekSliderValue 0 s in
  drawWaveform s.

Definition togglePlayPause (s : State) : outcome State :=
  if isPlaying s then
    let elapsedWallTime := now - startTime s in
    let s := set_pausedAt (pausedAt s + elapsedWallTime * playbackRate s) s in
    Ok (pauseAudio s)
  else playAudio s.

Definition getCurrentTime (s : State) : outcome (Q * State) :=
  if negb (isPlaying s) then Ok (pausedAt s, s) else
  match audioBuffer s with
  | None => TypeError
  | Some b =>
      let elapsed := now - startTime s in
      let time := pausedAt s + elapsed * playbackRate s in
      if Qgtb time (duration b) then Ok (duration b, stopAudio s)
      else Ok (time, s)
  end.

Definition handleSpeedChange (val : Q) (s : State) : outcome State :=
  let newRate := val in
  s <- (if isPlaying s then
          '(currentBufferTime, s) <- getCurrentTime s ;;
          let s := set_pausedAt currentBufferTime s in
          let s := set_startTime now s in
          Ok (match sourceNode s with
              | Some n =>
                  set_sourceNode
                    (Some {| src_rate := newRate; src_offset := src_offset n |}) s
              | None => s
              end)
        else Ok s) ;;
  Ok (set_playbackRate newRate s).

Definition handleSeek (seekTime : Q) (s : State) : outcome State :=
  match audioBuffer s with
  | None => Ok s
  | Some _ =>
      s <- (if isPlaying s then
              let s := internalPause s in
              let s := set_pausedAt seekTime s in
              playAudio s
            else
              let s := set_pausedAt seekTime s in
              Ok (drawWaveform s)) ;;
      Ok (set_currentTimeDisplay (formatTime seekTime) s)
  end.

Definition updateProgress (s : State) : outcome State :=
  if negb (isPlaying s) then Ok s else
  '(currentPos, s) <- getCurrentTime s ;;
  let s := set_seekSliderValue currentPos s in
  Ok (set_currentTimeDisplay (formatTime currentPos) s).

End Handlers.

End Knob.


(** ** The clock model

    The position formula the source states in a comment and evaluates in
    [getCurrentTime]:
    [currentOffset = pausedAt + (audioCtx.currentTime - startTime) * playbackRate]. *)
Definition clockPosition (now : Q) (s : State) : Q :=
  pausedAt s + (now - startTime s) * playbackRate s.

Definition Stopped (s : State) : Prop :=
  isPlaying s = false /\ sourceNode s = None /\ pausedAt s = 0.

(** ** A worked session

    A ten-second buffer of five samples on a canvas four pixels wide;
    the states are obtained by running the handlers. *)

Definition orElse (o : outcome State) (dflt : State) : State :=
  match o with Ok s => s | _ => dflt end.

Definition demoBuffer : AudioBuffer :=
  {| duration := 10; channelData0 := [0; 1 # 2; -(1 # 2); 1 # 4; 0] |}.

(** The decoder has delivered [demoBuffer]: the reverb graph is set up
    and the waveform drawn. *)
Definition demoLoaded : State :=
  orElse (Scrub.handleFileUpload_decoded 0 demoBuffer (initialState 4 100))
         (initialState 4 100).

(** Play pressed at device time 100 (slider variant). *)
Definition demoPlaying : State :=
  orElse (Scrub.togglePlayPause 100 demoLoaded) demoLoaded.

(** Speed set to 1.5 at device time 102, two seconds into the track. *)
Definition demoRated : State :=
  orElse (Scrub.handleSpeedChange 102 (3 # 2) demoPlaying) demoLoaded.

(** Pause pressed at device time 104. *)
Definition demoPaused : State :=
  orElse (Scrub.togglePlayPause 104 demoRated) demoLoaded.

(** The same opening in the draggable-slider variant. *)
Definition demoDragPlaying : State :=
  orElse (Drag.togglePlayPause 100 demoLoaded) demoLoaded.

Definition demoDragRated : State :=
  orElse (Drag.handleSpeedChange 102 (3 # 2) demoDragPlaying) demoLoaded.

Definition demoDragPaused : State :=
  orElse (Drag.togglePlayPause 104 demoDragRated) demoLoaded.

(** ** Statements shared by the variants *)

(** Continuity of the position across a rate change, for a variant given
    by its [getCurrentTime] and [handleSpeedChange]: the position [p]
    read at [now] is the position read again right after the change, the
    anchor is ([now], [p], [r2]), from then on the clock model advances
    at rate [r2], and unless the read reached the end of the track the
    engine keeps playing. *)
Definition PositionContinuous
    (getCurrentTime : Q -> State -> outcome (Q * State))
    (handleSpeedChange : Q -> Q -> State -> outcome State)
    (now r2 : Q) (s : State) (b : AudioBuffer) : Prop :=
  exists p s0 s1,
    getCurrentTime now s = Ok (p, s0) /\
    handleSpeedChange now r2 s = Ok s1 /\
    startTime s1 = now /\ pausedAt s1 = p /\ playbackRate s1 = r2 /\
    (exists p', getCurrentTime now s1 = Ok (p', s1) /\ p' == p) /\
    (forall later, clockPosition later s1 == p + (later - now) * r2) /\
    (clockPosition now s <= duration b ->
     p = clockPosition now s /\ isPlaying s1 = true).

(** The two gain coefficients of the effects graph, when both nodes exist. *)
Definition gains (s : State) : option (Q * Q) :=
  match dryNode s, wetNode s with
  | Some d, Some w => Some (gain d, gain w)
  | _, _ => None
  end.

(** The nodes [playAudio] connects the new source to. *)
Definition graphReady (s : State) : Prop :=
  dryNode s <> None /\ reverbNode s <> None /\
  wetNode s <> None /\ gainNode s <> None.



(** ** The waveform envelope, as the specification words it *)

(** Window [i] of the channel: the samples at indices
    [i * step .. (i + 1) * step - 1] that exist. *)
Definition window (data : list Q) (step i : nat) : list Q :=
  firstn step (skipn (i * step) data).

Definition IsMinOf (m : Q) (l : list Q) : Prop :=
  (exists y, In y l /\ y == m) /\ forall x, In x l -> m <= x.

Definition IsMaxOf (m : Q) (l : list Q) : Prop :=
  (exists y, In y l /\ y == m) /\ forall x, In x l -> x <= m.

(** The envelope claim: the windows partition the channel, every window
    but the final one holds [step] samples, and column [i] is drawn from
    [(1 + min) * amp] to [(1 + max) * amp] for the minimum and maximum
    of window [i]. *)
Definition EnvelopeAsClaimed (data : list Q) (width height : nat) : Prop :=
  let step := stepOf (List.length data) width in
  let amp := ofNat height / 2 in
  let path := waveformPath data width height in
  concat (map (window data step) (seq 0 width)) = data /\
  forall i, (i < width)%nat ->
    ((i < width - 1)%nat -> List.length (window data step i) = step) /\
    exists mn mx,
      IsMinOf mn (window data step i) /\ IsMaxOf mx (window data step i) /\
      nth_error path (2 * i) = Some (MoveTo (ofNat i) ((1 + mn) * amp)) /\
      nth_error path (2 * i + 1) = Some (LineTo (ofNat i) ((1 + mx) * amp)).

(** Every index the envelope loop reads exists. *)
Definition AccessesInBounds (data : list Q) (width : nat) : Prop :=
  let step := stepOf (List.length data) width in
  forall i j, (i < width)%nat -> (j < step)%nat ->
              sampleAt data (i * step + j) <> None.

(** The two updates of the inner loop, one sample at a time. *)
Definition scanDatum (mm : Q * Q) (d : Q) : Q * Q := scanSample mm (Some d).
Definition minStep (m d : Q) : Q := if Qltb d m then d else m.
Definition maxStep (m d : Q) : Q := if Qgtb d m then d else m.

(** ** The rotary knob ([setupKnob], [updateKnobVisual])

    The closure state of one knob: the four [let] bindings of
    [setupKnob] and the rotation [updateKnobVisual] last wrote to the
    indicator.  Whether the element carries the [disabled] class when
    the mouse goes down is part of the event. *)

Record KnobState : Type := {
  currentValue : Q;
  isDragging : bool;
  startY : Q;
  startValue : Q;
  indicatorAngle : Q
}.

Inductive KnobEvent : Type :=
| MouseDown (clientY : Q) (disabled : bool)
| MouseMove (clientY : Q)
| MouseUp.

(** [updateKnobVisual]: the angle, in degrees, of the indicator. *)
Definition knobAngle (value min max : Q) : Q :=
  let percent := (value - min) / (max - min) in
  -(135) + percent * 270.

(** [setupKnob] up to the registration of the listeners: the initial
    state, and the value handed to [onChange]. *)
Definition setupKnob (min max initialValue : Q) : KnobState * Q :=
  ({| currentValue := initialValue; isDragging := false;
      startY := 0; startValue := 0;
      indicatorAngle := knobAngle initialValue min max |},
   initialValue).

(** One listener run; the second component is the value handed to
    [onChange], if the listener calls it. *)
Definition knobStep (min max : Q) (ev : KnobEvent) (k : KnobState)
    : KnobState * option Q :=
  match ev with
  | MouseDown clientY disabled =>
      if disabled then (k, None)
      else ({| currentValue := currentValue k; isDragging := true;
               startY := clientY; startValue := currentValue k;
               indicatorAngle := indicatorAngle k |}, None)
  | MouseMove clientY =>
      if negb (isDragging k) then (k, None)
      else
        let deltaY := startY k - clientY in
        let newValue := knobValue min max (startValue k) deltaY in
        ({| currentValue := newValue; isDragging := isDragging k;
            startY := startY k; startValue := startValue k;
            indicatorAngle := knobAngle newValue min max |}, Some newValue)
  | MouseUp =>
      if isDragging k
      then ({| currentValue := currentValue k; isDragging := false;
               startY := startY k; startValue := startValue k;
               indicatorAngle := indicatorAngle k |}, None)
      else (k, None)
  end.

(** A run of listeners; the values handed to [onChange], oldest first. *)
Fixpoint knobRun (min max : Q) (evs : list KnobEvent) (k : KnobState)
    : KnobState * list Q :=
  match evs with
  | [] => (k, [])
  | ev :: evs' =>
      let '(k1, out) := knobStep min max ev k in
      let '(k2, outs) := knobRun min max evs' k1 in
      (k2, match out with Some v => v :: outs | None => outs end)
  end.

(** The speed knob of the knob variants:
    [setupKnob(speedKnob, 0.5, 1.5, 1.0, (val) => handleSpeedChange(val))];
    each event comes with the device time at which it is handled. *)
Definition speedKnobStep (ev : Q * KnobEvent) (ks : KnobState * State)
    : outcome (KnobState * State) :=
  let '(now, e) := ev in
  let '(k, s) := ks in
  let '(k1, out) := knobStep (1 # 2) (3 # 2) e k in
  match out with
  | Some val => s1 <- Drag.handleSpeedChange now val s ;; Ok (k1, s1)
  | None => Ok (k1, s)
  end.

Fixpoint speedKnobRun (evs : list (Q * KnobEvent)) (ks : KnobState * State)
    : outcome (KnobState * State) :=
  match evs with
  | [] => Ok ks
  | ev :: evs' => ks1 <- speedKnobStep ev ks ;; speedKnobRun evs' ks1
  end.

(** ** The listeners of the slider variant

    The registrations at the top of the script: file input, play
    button, speed slider, reverb slider, canvas click and window resize;
    and the animation frame that runs [updateProgress].  A file upload
    is two steps, before and after the awaited decoding.  Each event
    comes with the device time at which it is handled. *)




(** What the handlers rely on without checking: the graph nodes exist
    once a buffer does, and a source node exists exactly while playing,
    which needs a buffer. *)
Definition wellFormed (s : State) : Prop :=
  (audioBuffer s <> None -> graphReady s) /\
  (isPlaying s = true -> audioBuffer s <> None /\ sourceNode s <> None) /\
  (isPlaying s = false -> sourceNode s = None).

(** ** Sequences of operations *)

(** Rate changes at the given device times, oldest first, through a
    variant's [handleSpeedChange]. *)
Fixpoint rateChanges (handleSpeedChange : Q -> Q -> State -> outcome State)
    (changes : list (Q * Q)) (s : State) : outcome State :=
  match changes with
  | [] => Ok s
  | (t, r) :: rest =>
      s1 <- handleSpeedChange t r s ;; rateChanges handleSpeedChange rest s1
  end.

(** The position a piecewise-constant rate reaches at [final], from
    position [p] at time [t] with rate [r]. *)
Fixpoint pieceEnd (p t r : Q) (changes : list (Q * Q)) (final : Q) : Q :=
  match changes with
  | [] => p + (final - t) * r
  | (t1, r1) :: rest => pieceEnd (p + (t1 - t) * r) t1 r1 rest final
  end.

(** Every change happens before the end of the track is passed. *)
Fixpoint piecesWithin (d p t r : Q) (changes : list (Q * Q)) : Prop :=
  match changes with
  | [] => True
  | (t1, r1) :: rest =>
      p + (t1 - t) * r <= d /\ piecesWithin d (p + (t1 - t) * r) t1 r1 rest
  end.

(** The [input] events of one drag of the seek slider. *)
Definition seekMoves (targets : list Q) (s : State) : State :=
  fold_left (fun s t => Drag.handleSeek t s) targets s.

(** The buffer and the effects graph are the same in both states. *)
Definition sameGraph (s s' : State) : Prop :=
  audioBuffer s' = audioBuffer s /\ gainNode s' = gainNode s /\
  reverbNode s' = reverbNode s /\ dryNode s' = dryNode s /\
  wetNode s' = wetNode s.

(** ** The listeners of the knob variants

    Play button, the two knobs (through their [onChange] callbacks), the
    seek slider and the animation frame.  The draggable slider has
    press, input and release handlers; the plain slider has the input
    handler and a release handler with an empty body. *)







(** * Verification *)

Ltac fields :=
  cbn [audioBuffer sourceNode gainNode reverbNode dryNode wetNode isPlaying
       startTime pausedAt playbackRate reverbAmount wasPlaying canvasWidth
       canvasHeight ctx currentTimeDisplay seekSliderValue
       set_audioBuffer set_sourceNode set_nodes set_isPlaying set_startTime
       set_pausedAt set_playbackRate set_reverbAmount set_wasPlaying
       set_canvasSize set_ctx set_currentTimeDisplay set_seekSliderValue
       draw internalPause bind fst snd] in *.

(** ** Comparison lemmas *)

Lemma Qgtb_true (x y : Q) : Qgtb x y = true <-> y < x.
Proof.
  unfold Qgtb. rewrite negb_true_iff.
  split; intro H.
  - apply Qnot_le_lt. intro L. apply Qle_bool_iff in L. congruence.
  - destruct (Qle_bool x y) eqn:E; [|reflexivity].
    apply Qle_bool_iff in E. lra.
Qed.

Lemma Qgtb_false (x y : Q) : Qgtb x y = false <-> x <= y.
Proof.
  unfold Qgtb. rewrite negb_false_iff. apply Qle_bool_iff.
Qed.

Lemma Qltb_true (x y : Q) : Qltb x y = true <-> x < y.
Proof. unfold Qltb. apply (Qgtb_true y x). Qed.

Lemma Qltb_false (x y : Q) : Qltb x y = false <-> y <= x.
Proof. unfold Qltb. apply (Qgtb_false y x). Qed.

(** ** The worked session runs

    No step of the session falls back on its default. *)
Lemma demo_session_runs :
  Scrub.handleFileUpload_decoded 0 demoBuffer (initialState 4 100) = Ok demoLoaded /\
  Scrub.togglePlayPause 100 demoLoaded = Ok demoPlaying /\
  Scrub.handleSpeedChange 102 (3 # 2) demoPlaying = Ok demoRated /\
  Scrub.togglePlayPause 104 demoRated = Ok demoPaused /\
  Drag.togglePlayPause 100 demoLoaded = Ok demoDragPlaying /\
  Drag.handleSpeedChange 102 (3 # 2) demoDragPlaying = Ok demoDragRated /\
  Drag.togglePlayPause 104 demoDragRated = Ok demoDragPaused.
Proof. repeat split; reflexivity. Qed.

(** ** Facts about the slider variant *)

Section ScrubFacts.

Variable now : Q.

Lemma Scrub_getCurrentTime_fuel_idle (fuel : nat) (s : State) :
  isPlaying s = false ->
  Scrub.getCurrentTime_fuel now fuel s = Ok (pausedAt s, s).
Proof. intro H. destruct fuel; simpl; rewrite H; reflexivity. Qed.

Lemma Scrub_getCurrentTime_idle (s : State) :
  isPlaying s = false -> Scrub.getCurrentTime now s = Ok (pausedAt s, s).
Proof. apply Scrub_getCurrentTime_fuel_idle. Qed.

Lemma Scrub_getCurrentTime_unfold (fuel : nat) (s : State) :
  Scrub.getCurrentTime_fuel now (S fuel) s =
  if negb (isPlaying s) then Ok (pausedAt s, s) else
  match audioBuffer s with
  | None => TypeError
  | Some b =>
      if Qgtb (clockPosition now s) (duration b) then
        s' <- Scrub.stopAudio_with (Scrub.getCurrentTime_fuel now fuel) s ;;
        Ok (duration b, s')
      else Ok (clockPosition now s, s)
  end.
Proof. reflexivity. Qed.

(** What [stopAudio] leaves behind, whatever callee it was tied to. *)
Lemma Scrub_stopAudio_with_fuel (fuel : nat) (s : State) :
  exists s',
    Scrub.stopAudio_with (Scrub.getCurrentTime_fuel now fuel) s = Ok s' /\
    isPlaying s' = false /\ sourceNode s' = None /\
    pausedAt s' = 0 /\ startTime s' = 0 /\
    audioBuffer s' = audioBuffer s /\ playbackRate s' = playbackRate s /\
    dryNode s' = dryNode s /\ wetNode s' = wetNode s.
Proof.
  unfold Scrub.stopAudio_with, Scrub.drawWaveform_with. fields.
  destruct (audioBuffer s) as [b|] eqn:Eb.
  - rewrite Scrub_getCurrentTime_fuel_idle by reflexivity. fields.
    rewrite Eb. eexists; split; [reflexivity|]. fields. repeat split; auto.
  - eexists; split; [reflexivity|]. fields. repeat split; auto.
Qed.


(** The recursion never runs out: one unit of fuel is as good as any. *)
Lemma Scrub_getCurrentTime_fuel_enough (fuel : nat) (s : State) :
  Scrub.getCurrentTime_fuel now (S fuel) s = Scrub.getCurrentTime now s.
Proof.
  unfold Scrub.getCurrentTime. rewrite !Scrub_getCurrentTime_unfold.
  destruct (negb (isPlaying s)); [reflexivity|].
  destruct (audioBuffer s) as [b|] eqn:Eb; [|reflexivity].
  destruct (Qgtb _ _); [|reflexivity].
  f_equal.
  unfold Scrub.stopAudio_with, Scrub.drawWaveform_with. fields.
  rewrite Eb. rewrite !Scrub_getCurrentTime_fuel_idle by reflexivity.
  reflexivity.
Qed.

Lemma Scrub_getCurrentTime_total (s : State) :
  Scrub.getCurrentTime now s <> OutOfFuel.
Proof.
  unfold Scrub.getCurrentTime. rewrite Scrub_getCurrentTime_unfold.
  destruct (negb (isPlaying s)); [discriminate|].
  destruct (audioBuffer s) as [b|] eqn:Eb; [|discriminate].
  destruct (Qgtb _ _); [|discriminate].
  destruct (Scrub_stopAudio_with_fuel 0 s) as (s1 & E & _).
  rewrite E. discriminate.
Qed.

Lemma Scrub_getCurrentTime_within (s : State) (b : AudioBuffer) :
  isPlaying s = true -> audioBuffer s = Some b ->
  clockPosition now s <= duration b ->
  Scrub.getCurrentTime now s = Ok (clockPosition now s, s).
Proof.
  intros Hp Hb Hle. unfold Scrub.getCurrentTime.
  rewrite Scrub_getCurrentTime_unfold, Hp, Hb. cbn [negb].
  apply Qgtb_false in Hle. rewrite Hle. reflexivity.
Qed.

Lemma Scrub_getCurrentTime_beyond (s : State) (b : AudioBuffer) :
  isPlaying s = true -> audioBuffer s = Some b ->
  duration b < clockPosition now s ->
  exists s',
    Scrub.getCurrentTime now s = Ok (duration b, s') /\
    isPlaying s' = false /\ sourceNode s' = None /\
    pausedAt s' = 0 /\ startTime s' = 0 /\
    audioBuffer s' = Some b /\ playbackRate s' = playbackRate s.
Proof.
  intros Hp Hb Hlt. unfold Scrub.getCurrentTime.
  rewrite Scrub_getCurrentTime_unfold, Hp, Hb. cbn [negb].
  apply Qgtb_true in Hlt. rewrite Hlt.
  destruct (Scrub_stopAudio_with_fuel 0 s)
    as (s' & E & H1 & H2 & H3 & H4 & H5 & H6 & _).
  rewrite E. exists s'. cbn [bind]. rewrite H5, Hb in *.
  repeat split; auto.
Qed.

End ScrubFacts.

(** ** Facts about the knob variants *)

Section KnobFacts.

Variable now : Q.

Lemma Drag_stopAudio_spec (s : State) :
  isPlaying (Drag.stopAudio s) = false /\ sourceNode (Drag.stopAudio s) = None /\
  pausedAt (Drag.stopAudio s) = 0 /\ startTime (Drag.stopAudio s) = 0 /\
  audioBuffer (Drag.stopAudio s) = audioBuffer s /\
  playbackRate (Drag.stopAudio s) = playbackRate s.
Proof.
  unfold Drag.stopAudio, Drag.drawWaveform. fields.
  destruct (audioBuffer s) eqn:Eb; fields; repeat split; auto.
Qed.

Lemma Knob_stopAudio_spec (s : State) :
  isPlaying (Knob.stopAudio s) = false /\ sourceNode (Knob.stopAudio s) = None /\
  pausedAt (Knob.stopAudio s) = 0 /\ startTime (Knob.stopAudio s) = 0 /\
  audioBuffer (Knob.stopAudio s) = audioBuffer s /\
  playbackRate (Knob.stopAudio s) = playbackRate s.
Proof.
  unfold Knob.stopAudio, Knob.drawWaveform. fields.
  destruct (audioBuffer s) eqn:Eb; fields; repeat split; auto.
Qed.

Lemma Drag_getCurrentTime_idle (s : State) :
  isPlaying s = false -> Drag.getCurrentTime now s = Ok (pausedAt s, s).
Proof. intro H. unfold Drag.getCurrentTime. rewrite H. reflexivity. Qed.

Lemma Knob_getCurrentTime_idle (s : State) :
  isPlaying s = false -> Knob.getCurrentTime now s = Ok (pausedAt s, s).
Proof. intro H. unfold Knob.getCurrentTime. rewrite H. reflexivity. Qed.

Lemma Drag_getCurrentTime_within (s : State) (b : AudioBuffer) :
  isPlaying s = true -> audioBuffer s = Some b ->
  clockPosition now s <= duration b ->
  Drag.getCurrentTime now s = Ok (clockPosition now s, s).
Proof.
  intros Hp Hb Hle. unfold Drag.getCurrentTime. rewrite Hp, Hb. cbn [negb].
  apply Qgtb_false in Hle. unfold clockPosition in *. rewrite Hle. reflexivity.
Qed.

Lemma Knob_getCurrentTime_within (s : State) (b : AudioBuffer) :
  isPlaying s = true -> audioBuffer s = Some b ->
  clockPosition now s <= duration b ->
  Knob.getCurrentTime now s = Ok (clockPosition now s, s).
Proof.
  intros Hp Hb Hle. unfold Knob.getCurrentTime. rewrite Hp, Hb. cbn [negb].
  apply Qgtb_false in Hle. unfold clockPosition in *. rewrite Hle. reflexivity.
Qed.

Lemma Drag_getCurrentTime_beyond (s : State) (b : AudioBuffer) :
  isPlaying s = true -> audioBuffer s = Some b ->
  duration b < clockPosition now s ->
  Drag.getCurrentTime now s = Ok (duration b, Drag.stopAudio s).
Proof.
  intros Hp Hb Hlt. unfold Drag.getCurrentTime. rewrite Hp, Hb. cbn [negb].
  apply Qgtb_true in Hlt. unfold clockPosition in *. rewrite Hlt. reflexivity.
Qed.

Lemma Knob_getCurrentTime_beyond (s : State) (b : AudioBuffer) :
  isPlaying s = true -> audioBuffer s = Some b ->
  duration b < clockPosition now s ->
  Knob.getCurrentTime now s = Ok (duration b, Knob.stopAudio s).
Proof.
  intros Hp Hb Hlt. unfold Knob.getCurrentTime. rewrite Hp, Hb. cbn [negb].
  apply Qgtb_true in Hlt. unfold clockPosition in *. rewrite Hlt. reflexivity.
Qed.

End KnobFacts.

(** ** End of track *)

(** C4.  While playing, when the clock-model position
    [pausedAt + (now - startTime) * playbackRate] exceeds the buffer
    duration, [getCurrentTime] returns exactly the duration and leaves the
    engine stopped: [isPlaying] false, the source node dropped, the held
    position reset to 0.  This holds in each of the three variants. *)
Theorem end_of_track_auto_stop (now : Q) (s : State) (b : AudioBuffer) :
  isPlaying s = true ->
  audioBuffer s = Some b ->
  duration b < clockPosition now s ->
  (exists s', Scrub.getCurrentTime now s = Ok (duration b, s') /\ Stopped s') /\
  (exists s', Drag.getCurrentTime now s = Ok (duration b, s') /\ Stopped s') /\
  (exists s', Knob.getCurrentTime now s = Ok (duration b, s') /\ Stopped s').
Proof.
  intros Hp Hb Hlt. unfold Stopped. repeat split.
  - destruct (Scrub_getCurrentTime_beyond now s b Hp Hb Hlt)
      as (s' & E & H1 & H2 & H3 & _).
    exists s'. auto.
  - exists (Drag.stopAudio s).
    rewrite (Drag_getCurrentTime_beyond now s b Hp Hb Hlt).
    destruct (Drag_stopAudio_spec s) as (H1 & H2 & H3 & _). auto.
  - exists (Knob.stopAudio s).
    rewrite (Knob_getCurrentTime_beyond now s b Hp Hb Hlt).
    destruct (Knob_stopAudio_spec s) as (H1 & H2 & H3 & _). auto.
Qed.

Lemma end_of_track_auto_stop_witness :
  (exists s', Scrub.getCurrentTime 120 demoPlaying = Ok (10, s') /\ Stopped s') /\
  (exists s', Drag.getCurrentTime 120 demoPlaying = Ok (10, s') /\ Stopped s') /\
  (exists s', Knob.getCurrentTime 120 demoPlaying = Ok (10, s') /\ Stopped s').
Proof.
  apply (end_of_track_auto_stop 120 demoPlaying demoBuffer).
  - reflexivity.
  - reflexivity.
  - vm_compute. reflexivity.
Defined.

(** ** Monotonicity *)

Lemma clockPosition_monotone (t1 t2 : Q) (s : State) :
  0 <= playbackRate s -> t1 <= t2 -> clockPosition t1 s <= clockPosition t2 s.
Proof.
  intros Hr Ht. unfold clockPosition.
  assert (0 <= (t2 - t1) * playbackRate s) by (apply Qmult_le_0_compat; lra).
  lra.
Qed.

(** C9.  While playing at a positive rate, two successive reads of
    [getCurrentTime] at device times [t1 <= t2], with nothing in between
    and the first read still short of the duration clamp, return
    positions [p1 <= p2]; the first read leaves the state untouched and
    the second never exceeds the duration. *)
Theorem position_monotone (t1 t2 : Q) (s : State) (b : AudioBuffer) :
  isPlaying s = true ->
  audioBuffer s = Some b ->
  0 < playbackRate s ->
  t1 <= t2 ->
  clockPosition t1 s <= duration b ->
  exists p1 p2 s2,
    Scrub.getCurrentTime t1 s = Ok (p1, s) /\
    Scrub.getCurrentTime t2 s = Ok (p2, s2) /\
    p1 <= p2 /\ p2 <= duration b.
Proof.
  intros Hp Hb Hr Ht H1.
  assert (Hm : clockPosition t1 s <= clockPosition t2 s)
    by (apply clockPosition_monotone; lra).
  exists (clockPosition t1 s).
  destruct (Qlt_le_dec (duration b) (clockPosition t2 s)) as [Hlt|Hle].
  - destruct (Scrub_getCurrentTime_beyond t2 s b Hp Hb Hlt) as (s' & E & _).
    exists (duration b), s'.
    rewrite (Scrub_getCurrentTime_within t1 s b Hp Hb H1).
    repeat split; auto; lra.
  - exists (clockPosition t2 s), s.
    rewrite (Scrub_getCurrentTime_within t1 s b Hp Hb H1).
    rewrite (Scrub_getCurrentTime_within t2 s b Hp Hb Hle).
    repeat split; auto.
Qed.

Lemma position_monotone_witness :
  exists p1 p2 s2,
    Scrub.getCurrentTime 103 demoRated = Ok (p1, demoRated) /\
    Scrub.getCurrentTime 105 demoRated = Ok (p2, s2) /\
    p1 <= p2 /\ p2 <= 10.
Proof.
  apply (position_monotone 103 105 demoRated demoBuffer).
  - reflexivity.
  - reflexivity.
  - vm_compute. reflexivity.
  - vm_compute. discriminate.
  - vm_compute. discriminate.
Defined.

(** ** Rate changes *)

Lemma Scrub_handleSpeedChange_playing (now r2 : Q) (s : State) (b : AudioBuffer) :
  isPlaying s = true -> audioBuffer s = Some b ->
  exists p s0 s1,
    Scrub.getCurrentTime now s = Ok (p, s0) /\
    Scrub.handleSpeedChange now r2 s = Ok s1 /\
    startTime s1 = now /\ pausedAt s1 = p /\ playbackRate s1 = r2 /\
    audioBuffer s1 = Some b /\ isPlaying s1 = isPlaying s0 /\
    p <= duration b /\
    (clockPosition now s <= duration b ->
     p = clockPosition now s /\ isPlaying s1 = true).
Proof.
  intros Hp Hb. unfold Scrub.handleSpeedChange. rewrite Hp.
  destruct (Qlt_le_dec (duration b) (clockPosition now s)) as [Hlt|Hle].
  - destruct (Scrub_getCurrentTime_beyond now s b Hp Hb Hlt)
      as (s' & E & H1 & H2 & H3 & H4 & H5 & H6).
    rewrite E. fields. rewrite H2. fields.
    do 3 eexists. split; [reflexivity|]. split; [reflexivity|]. fields.
    repeat split; auto; lra.
  - rewrite (Scrub_getCurrentTime_within now s b Hp Hb Hle). fields.
    do 3 eexists. split; [reflexivity|]. split; [reflexivity|].
    destruct (sourceNode s); fields; repeat split; auto.
Qed.

Lemma Drag_handleSpeedChange_playing (now r2 : Q) (s : State) (b : AudioBuffer) :
  isPlaying s = true -> audioBuffer s = Some b ->
  exists p s0 s1,
    Drag.getCurrentTime now s = Ok (p, s0) /\
    Drag.handleSpeedChange now r2 s = Ok s1 /\
    startTime s1 = now /\ pausedAt s1 = p /\ playbackRate s1 = r2 /\
    audioBuffer s1 = Some b /\ isPlaying s1 = isPlaying s0 /\
    p <= duration b /\
    (clockPosition now s <= duration b ->
     p = clockPosition now s /\ isPlaying s1 = true).
Proof.
  intros Hp Hb. unfold Drag.handleSpeedChange. rewrite Hp.
  destruct (Qlt_le_dec (duration b) (clockPosition now s)) as [Hlt|Hle].
  - rewrite (Drag_getCurrentTime_beyond now s b Hp Hb Hlt).
    destruct (Drag_stopAudio_spec s) as (H1 & H2 & H3 & H4 & H5 & H6).
    fields. rewrite H2. fields.
    do 3 eexists. split; [reflexivity|]. split; [reflexivity|]. fields.
    rewrite H5. repeat split; auto; lra.
  - rewrite (Drag_getCurrentTime_within now s b Hp Hb Hle). fields.
    do 3 eexists. split; [reflexivity|]. split; [reflexivity|].
    destruct (sourceNode s); fields; repeat split; auto.
Qed.

Lemma Knob_handleSpeedChange_playing (now r2 : Q) (s : State) (b : AudioBuffer) :
  isPlaying s = true -> audioBuffer s = Some b ->
  exists p s0 s1,
    Knob.getCurrentTime now s = Ok (p, s0) /\
    Knob.handleSpeedChange now r2 s = Ok s1 /\
    startTime s1 = now /\ pausedAt s1 = p /\ playbackRate s1 = r2 /\
    audioBuffer s1 = Some b /\ isPlaying s1 = isPlaying s0 /\
    p <= duration b /\
    (clockPosition now s <= duration b ->
     p = clockPosition now s /\ isPlaying s1 = true).
Proof.
  intros Hp Hb. unfold Knob.handleSpeedChange. rewrite Hp.
  destruct (Qlt_le_dec (duration b) (clockPosition now s)) as [Hlt|Hle].
  - rewrite (Knob_getCurrentTime_beyond now s b Hp Hb Hlt).
    destruct (Knob_stopAudio_spec s) as (H1 & H2 & H3 & H4 & H5 & H6).
    fields. rewrite H2. fields.
    do 3 eexists. split; [reflexivity|]. split; [reflexivity|]. fields.
    rewrite H5. repeat split; auto; lra.
  - rewrite (Knob_getCurrentTime_within now s b Hp Hb Hle). fields.
    do 3 eexists. split; [reflexivity|]. split; [reflexivity|].
    destruct (sourceNode s); fields; repeat split; auto.
Qed.

(** Reading the position right after the anchor was reset to it. *)
Lemma reread_at_anchor
    (getCurrentTime : Q -> State -> outcome (Q * State))
    (now r2 p : Q) (s1 : State) (b : AudioBuffer) :
  (isPlaying s1 = false -> getCurrentTime now s1 = Ok (pausedAt s1, s1)) ->
  (isPlaying s1 = true -> clockPosition now s1 <= duration b ->
   getCurrentTime now s1 = Ok (clockPosition now s1, s1)) ->
  startTime s1 = now -> pausedAt s1 = p -> playbackRate s1 = r2 ->
  p <= duration b ->
  exists p', getCurrentTime now s1 = Ok (p', s1) /\ p' == p.
Proof.
  intros Hidle Hwithin Hs Hq Hr Hle.
  assert (Hc : clockPosition now s1 == p)
    by (unfold clockPosition; rewrite Hs, Hq, Hr; ring).
  destruct (isPlaying s1) eqn:Ep.
  - exists (clockPosition now s1). split; [|exact Hc].
    apply Hwithin; [reflexivity|]. rewrite Hc. exact Hle.
  - exists (pausedAt s1). split; [auto|]. rewrite Hq. reflexivity.
Qed.

Lemma anchor_future (now r2 p later : Q) (s1 : State) :
  startTime s1 = now -> pausedAt s1 = p -> playbackRate s1 = r2 ->
  clockPosition later s1 == p + (later - now) * r2.
Proof. intros Hs Hq Hr. unfold clockPosition. rewrite Hs, Hq, Hr. reflexivity. Qed.

(** C1.  While playing, [handleSpeedChange] with a new rate [r2] (any
    rate, so in particular any old and new rate in [0.5, 1.5]) keeps the
    position: if [getCurrentTime] reads [p] at [now], then after the call
    the anchor is ([now], [p], [r2]), [getCurrentTime] at the same [now]
    reads [p] again, and only the rate at which the position advances
    afterwards has changed.  This holds in each of the three variants. *)
Theorem rate_change_keeps_position (now r2 : Q) (s : State) (b : AudioBuffer) :
  isPlaying s = true ->
  audioBuffer s = Some b ->
  PositionContinuous Scrub.getCurrentTime Scrub.handleSpeedChange now r2 s b /\
  PositionContinuous Drag.getCurrentTime Drag.handleSpeedChange now r2 s b /\
  PositionContinuous Knob.getCurrentTime Knob.handleSpeedChange now r2 s b.
Proof.
  intros Hp Hb. unfold PositionContinuous. repeat split.
  - destruct (Scrub_handleSpeedChange_playing now r2 s b Hp Hb)
      as (p & s0 & s1 & E1 & E2 & Hs & Hq & Hr & Hb1 & _ & Hle & Hkeep).
    exists p, s0, s1. repeat split; auto.
    + apply (reread_at_anchor Scrub.getCurrentTime now r2 p s1 b); auto.
      * apply Scrub_getCurrentTime_idle.
      * intros Hp1. apply Scrub_getCurrentTime_within; auto.
    + intro later. apply anchor_future; auto.
    + apply Hkeep; auto.
    + apply Hkeep; auto.
  - destruct (Drag_handleSpeedChange_playing now r2 s b Hp Hb)
      as (p & s0 & s1 & E1 & E2 & Hs & Hq & Hr & Hb1 & _ & Hle & Hkeep).
    exists p, s0, s1. repeat split; auto.
    + apply (reread_at_anchor Drag.getCurrentTime now r2 p s1 b); auto.
      * apply Drag_getCurrentTime_idle.
      * intros Hp1. apply Drag_getCurrentTime_within; auto.
    + intro later. apply anchor_future; auto.
    + apply Hkeep; auto.
    + apply Hkeep; auto.
  - destruct (Knob_handleSpeedChange_playing now r2 s b Hp Hb)
      as (p & s0 & s1 & E1 & E2 & Hs & Hq & Hr & Hb1 & _ & Hle & Hkeep).
    exists p, s0, s1. repeat split; auto.
    + apply (reread_at_anchor Knob.getCurrentTime now r2 p s1 b); auto.
      * apply Knob_getCurrentTime_idle.
      * intros Hp1. apply Knob_getCurrentTime_within; auto.
    + intro later. apply anchor_future; auto.
    + apply Hkeep; auto.
    + apply Hkeep; auto.
Qed.

Lemma rate_change_keeps_position_witness :
  PositionContinuous Scrub.getCurrentTime Scrub.handleSpeedChange
    102 (3 # 2) demoPlaying demoBuffer /\
  PositionContinuous Drag.getCurrentTime Drag.handleSpeedChange
    102 (3 # 2) demoPlaying demoBuffer /\
  PositionContinuous Knob.getCurrentTime Knob.handleSpeedChange
    102 (3 # 2) demoPlaying demoBuffer.
Proof.
  apply (rate_change_keeps_position 102 (3 # 2) demoPlaying demoBuffer).
  - reflexivity.
  - reflexivity.
Defined.

(** ** The wet/dry mix *)

Lemma updateReverbMix_gains (s : State) (d w : GainNode) :
  dryNode s = Some d -> wetNode s = Some w ->
  gains (updateReverbMix s) = Some (1 - reverbAmount s, reverbAmount s * 2).
Proof.
  intros Hd Hw. unfold updateReverbMix, gains. rewrite Hd, Hw. reflexivity.
Qed.

(** Without gain nodes (nothing loaded yet) the amount is only stored;
    [setupReverb] applies it once the nodes are created. *)
Lemma handleReverbChange_before_load (a : Q) (s : State) :
  dryNode s = None ->
  handleReverbChange a s = set_reverbAmount a s /\
  gains (setupReverb (handleReverbChange a s)) = Some (1 - a, a * 2).
Proof.
  intro Hd. unfold handleReverbChange, updateReverbMix. fields.
  rewrite Hd. split; reflexivity.
Qed.

(** C7.  With the gain nodes in place, [handleReverbChange a] sets the
    dry gain to [1 - a] and the wet gain to [a * 2] for every amount
    [a] in [0, 1]; amount 0 gives dry 1 and wet 0, amount 1 gives dry 0
    and wet 2. *)
Theorem mix_sets_gains (s : State) (d w : GainNode) :
  dryNode s = Some d ->
  wetNode s = Some w ->
  (forall a, 0 <= a <= 1 ->
     reverbAmount (handleReverbChange a s) = a /\
     gains (handleReverbChange a s) = Some (1 - a, a * 2)) /\
  (exists dg wg, gains (handleReverbChange 0 s) = Some (dg, wg) /\
                 dg == 1 /\ wg == 0) /\
  (exists dg wg, gains (handleReverbChange 1 s) = Some (dg, wg) /\
                 dg == 0 /\ wg == 2).
Proof.
  intros Hd Hw.
  assert (G : forall a, reverbAmount (handleReverbChange a s) = a /\
                        gains (handleReverbChange a s) = Some (1 - a, a * 2)).
  { intro a. unfold handleReverbChange. split.
    - unfold updateReverbMix. fields. rewrite Hd, Hw. reflexivity.
    - rewrite (updateReverbMix_gains _ d w) by (fields; assumption).
      reflexivity. }
  repeat split.
  - apply G.
  - apply G.
  - exists (1 - 0), (0 * 2). split; [apply G|]. split; reflexivity.
  - exists (1 - 1), (1 * 2). split; [apply G|]. split; reflexivity.
Qed.

Lemma mix_sets_gains_witness :
  (forall a, 0 <= a <= 1 ->
     reverbAmount (handleReverbChange a demoLoaded) = a /\
     gains (handleReverbChange a demoLoaded) = Some (1 - a, a * 2)) /\
  (exists dg wg, gains (handleReverbChange 0 demoLoaded) = Some (dg, wg) /\
                 dg == 1 /\ wg == 0) /\
  (exists dg wg, gains (handleReverbChange 1 demoLoaded) = Some (dg, wg) /\
                 dg == 0 /\ wg == 2).
Proof.
  apply (mix_sets_gains demoLoaded {| gain := 1 - 0 |} {| gain := 0 * 2 |}).
  - reflexivity.
  - reflexivity.
Defined.

(** ** Starting, pausing and seeking *)

Lemma graphReady_cases (s : State) :
  graphReady s ->
  exists d r w g, dryNode s = Some d /\ reverbNode s = Some r /\
                  wetNode s = Some w /\ gainNode s = Some g.
Proof.
  intros (Hd & Hr & Hw & Hg).
  destruct (dryNode s) as [d|]; [|congruence].
  destruct (reverbNode s) as [r|]; [|congruence].
  destruct (wetNode s) as [w|]; [|congruence].
  destruct (gainNode s) as [g|]; [|congruence].
  exists d, r, w, g. auto.
Qed.


Lemma Knob_playAudio_spec (now : Q) (s : State) (b : AudioBuffer) :
  audioBuffer s = Some b -> graphReady s ->
  exists s',
    Knob.playAudio now s = Ok s' /\
    isPlaying s' = true /\ pausedAt s' = pausedAt s /\
    startTime s' = now - pausedAt s /\
    playbackRate s' = playbackRate s /\ audioBuffer s' = Some b.
Proof.
  intros Hb Hg. destruct (graphReady_cases s Hg) as (d & r & w & g & Hd & Hr & Hw & Hgn).
  unfold Knob.playAudio. rewrite Hb, Hd, Hr, Hw, Hgn.
  eexists; split; [reflexivity|]. fields. repeat split; auto.
Qed.

Lemma Drag_playAudio_spec (now : Q) (s : State) (b : AudioBuffer) :
  audioBuffer s = Some b -> graphReady s ->
  exists s',
    Drag.playAudio now s = Ok s' /\
    isPlaying s' = true /\ pausedAt s' = pausedAt s /\
    startTime s' = now /\
    playbackRate s' = playbackRate s /\ audioBuffer s' = Some b /\
    wasPlaying s' = wasPlaying s.
Proof.
  intros Hb Hg. destruct (graphReady_cases s Hg) as (d & r & w & g & Hd & Hr & Hw & Hgn).
  unfold Drag.playAudio. rewrite Hb, Hd, Hr, Hw, Hgn.
  eexists; split; [reflexivity|]. fields. repeat split; auto.
Qed.


(** *** Pausing *)

(** In the slider variant the toggle first adds the elapsed correction to
    [pausedAt], then [pauseAudio] overwrites [pausedAt] with the elapsed
    correction alone: the anchor position is lost and nothing is clamped. *)
Lemma Scrub_togglePlayPause_playing (now : Q) (s : State) :
  isPlaying s = true ->
  exists s',
    Scrub.togglePlayPause now s = Ok s' /\
    isPlaying s' = false /\ sourceNode s' = None /\
    pausedAt s' = (now - startTime s) * playbackRate s.
Proof.
  intro Hp. unfold Scrub.togglePlayPause, Scrub.pauseAudio. rewrite Hp.
  eexists; split; [reflexivity|]. fields. repeat split; reflexivity.
Qed.

Lemma Knob_togglePlayPause_playing (now : Q) (s : State) :
  isPlaying s = true ->
  exists s',
    Knob.togglePlayPause now s = Ok s' /\
    isPlaying s' = false /\ sourceNode s' = None /\
    pausedAt s' = (now - startTime s) * playbackRate s.
Proof.
  intro Hp. unfold Knob.togglePlayPause, Knob.pauseAudio. rewrite Hp.
  eexists; split; [reflexivity|]. fields. repeat split; reflexivity.
Qed.

(** The draggable-slider variant computes the clock-model position once
    and clamps it to the duration. *)
Lemma Drag_togglePlayPause_playing (now : Q) (s : State) (b : AudioBuffer) :
  isPlaying s = true -> audioBuffer s = Some b ->
  exists s',
    Drag.togglePlayPause now s = Ok s' /\
    isPlaying s' = false /\ sourceNode s' = None /\
    pausedAt s' =
      (if Qgtb (clockPosition now s) (duration b)
       then duration b else clockPosition now s) /\
    pausedAt s' <= duration b.
Proof.
  intros Hp Hb. unfold Drag.togglePlayPause, Drag.pauseAudio. rewrite Hp.
  fields. rewrite Hb. fold (clockPosition now s).
  eexists; split; [reflexivity|].
  destruct (Qgtb (clockPosition now s) (duration b)) eqn:E; fields;
    repeat split; try reflexivity.
  - lra.
  - apply Qgtb_false in E. exact E.
Qed.

(** C2 (the code departs from the claim).  In the slider variant, with
    the anchor at position 2 since device time 102 and rate 1.5, the
    clock model puts the position at 5 at device time 104; pressing
    pause there holds 3, the elapsed correction alone, and pressing it
    at device time 200 holds 147, far beyond the 10 second buffer. *)
Theorem Scrub_pause_drops_anchor_position :
  isPlaying demoRated = true /\
  pausedAt demoRated == 2 /\ startTime demoRated == 102 /\
  playbackRate demoRated == 3 # 2 /\
  clockPosition 104 demoRated == 5 /\
  Scrub.togglePlayPause 104 demoRated = Ok demoPaused /\
  pausedAt demoPaused == 3 /\
  (exists s', Scrub.togglePlayPause 200 demoRated = Ok s' /\
              pausedAt s' == 147 /\ duration demoBuffer < pausedAt s').
Proof.
  repeat split; try reflexivity.
  eexists; split; [reflexivity|]. split; reflexivity.
Qed.

(** The same session in the draggable-slider variant holds 5, and 10 when
    paused after the end. *)
Lemma Drag_pause_holds_clock_position :
  (exists s', Drag.togglePlayPause 104 demoDragRated = Ok s' /\ pausedAt s' == 5) /\
  (exists s', Drag.togglePlayPause 200 demoDragRated = Ok s' /\ pausedAt s' == 10).
Proof.
  split; eexists; (split; [reflexivity|]); reflexivity.
Qed.

(** *** Seeking *)



(** C3 (the code departs from the claim).  In the slider variant, playing
    from the start at rate 1 in a 10 second buffer, a click a fifth of
    the way along the canvas seeks to 2; the position read at once is 4. *)
Theorem Scrub_seek_while_playing_misreads :
  isPlaying demoPlaying = true /\
  100 / 500 * duration demoBuffer == 2 /\
  exists s1 p s2,
    Scrub.handleScrub 103 100 500 demoPlaying = Ok s1 /\
    Scrub.getCurrentTime 103 s1 = Ok (p, s2) /\
    p == 4.
Proof.
  split; [reflexivity|]. split; [reflexivity|].
  do 3 eexists. split; [reflexivity|]. split; [reflexivity|]. reflexivity.
Qed.

(** The draggable-slider variant: a whole drag (press, move to [t],
    release) from any state with a loaded buffer reads back [t]. *)
Lemma Drag_seek_reads_target (now t : Q) (s : State) (b : AudioBuffer) :
  audioBuffer s = Some b -> graphReady s -> wasPlaying s = false ->
  t <= duration b ->
  exists s3,
    Drag.handleSeekEnd now (Drag.handleSeek t (Drag.handleSeekStart s)) = Ok s3 /\
    isPlaying s3 = isPlaying s /\
    exists p, Drag.getCurrentTime now s3 = Ok (p, s3) /\ p == t.
Proof.
  intros Hb Hg Hw Ht.
  unfold Drag.handleSeekStart, Drag.handleSeek, Drag.handleSeekEnd, internalPause.
  destruct (isPlaying s) eqn:Hp.
  - fields. rewrite Hb. fields.
    destruct (Drag_playAudio_spec now
                (set_currentTimeDisplay (formatTime t)
                   (set_pausedAt t (set_isPlaying false
                      (set_sourceNode None (set_wasPlaying true s))))) b)
      as (s1 & E & H1 & H2 & H3 & H4 & H5 & H6); [fields; assumption| exact Hg |].
    rewrite E. fields. eexists; split; [reflexivity|]. fields.
    split; [assumption|].
    assert (Hc : clockPosition now (set_wasPlaying false s1) == t).
    { unfold clockPosition. fields. rewrite H2, H3. fields. ring. }
    exists (clockPosition now (set_wasPlaying false s1)). split; [|exact Hc].
    apply (Drag_getCurrentTime_within now _ b); fields; auto.
    rewrite Hc. exact Ht.
  - rewrite Hb. fields. rewrite Hw.
    eexists; split; [reflexivity|]. fields. split; [assumption|].
    exists t. split; [|reflexivity].
    rewrite Drag_getCurrentTime_idle by (fields; assumption). reflexivity.
Qed.

(** ** Range of the stored rate and position *)



(** The knob adapter clamps before it calls the engine. *)
Lemma knobValue_in_range (min max startValue deltaY : Q) :
  min <= max -> min <= knobValue min max startValue deltaY <= max.
Proof.
  intro H. unfold knobValue.
  set (v := startValue + deltaY * ((5 # 1000) * (max - min))).
  destruct (Qltb v min) eqn:E1.
  - destruct (Qgtb min max) eqn:E2.
    + apply Qgtb_true in E2. lra.
    + lra.
  - apply Qltb_false in E1.
    destruct (Qgtb v max) eqn:E2.
    + lra.
    + apply Qgtb_false in E2. lra.
Qed.

(** A click inside the canvas gives a seek time inside the track. *)
Lemma click_inside_canvas (x width d : Q) :
  0 < width -> 0 <= x <= width -> 0 <= d ->
  0 <= x / width * d <= d.
Proof.
  intros Hw [Hx0 Hx1] Hd.
  assert (H0 : 0 <= x / width) by (apply Qle_shift_div_l; lra).
  assert (H1 : x / width <= 1) by (apply Qle_shift_div_r; lra).
  split.
  - apply Qmult_le_0_compat; assumption.
  - assert (0 <= (1 - x / width) * d) by (apply Qmult_le_0_compat; lra).
    lra.
Qed.




(** ** Repeating pause and stop *)




(** ** The waveform envelope *)

Lemma stepOf_bounds (n w : nat) :
  (1 <= w)%nat ->
  (n <= w * stepOf n w)%nat /\ (w * stepOf n w < n + w)%nat.
Proof.
  intro Hw. unfold stepOf, ofNat.
  set (q := inject_Z (Z.of_nat n) / inject_Z (Z.of_nat w)).
  assert (HW : 0 < inject_Z (Z.of_nat w)).
  { rewrite <- (Zlt_Qlt 0). lia. }
  assert (Hq : q * inject_Z (Z.of_nat w) == inject_Z (Z.of_nat n)).
  { unfold q. field. lra. }
  assert (Hup : inject_Z (Z.of_nat n) <= inject_Z (Qceiling q * Z.of_nat w)).
  { rewrite inject_Z_mult, <- Hq.
    apply Qmult_le_compat_r; [apply Qle_ceiling|lra]. }
  assert (Hlo : inject_Z ((Qceiling q - 1) * Z.of_nat w) < inject_Z (Z.of_nat n)).
  { rewrite inject_Z_mult, <- Hq.
    apply Qmult_lt_compat_r; [exact HW|apply Qceiling_lt]. }
  rewrite <- Zle_Qle in Hup. rewrite <- Zlt_Qlt in Hlo.
  assert (Hc : (0 <= Qceiling q)%Z) by nia.
  split; nia.
Qed.

(** When the width divides the sample count the step is the quotient. *)
Lemma stepOf_exact (k w : nat) : (1 <= w)%nat -> stepOf (w * k) w = k.
Proof.
  intro Hw. destruct (stepOf_bounds (w * k) w Hw) as [H1 H2]. nia.
Qed.

Lemma skipn_nth_error_cons (data : list Q) (n : nat) (d : Q) :
  nth_error data n = Some d -> skipn n data = d :: skipn (S n) data.
Proof.
  revert data. induction n as [|n IH]; intros [|y l] H; try discriminate.
  - injection H as ->. reflexivity.
  - simpl in H. apply (IH l H).
Qed.

(** The inner loop over indices is a scan of the window: reads past the
    end of the array change nothing. *)
Lemma scan_indices_window (data : list Q) (base k start : nat) (acc : Q * Q) :
  fold_left (fun mm j => scanSample mm (sampleAt data (base + j))) (seq start k) acc =
  fold_left scanDatum (firstn k (skipn (base + start) data)) acc.
Proof.
  revert start acc. induction k as [|k IH]; intros start acc; [reflexivity|].
  cbn [seq fold_left]. rewrite IH. unfold sampleAt.
  replace (base + S start)%nat with (S (base + start)) by lia.
  destruct (nth_error data (base + start)) as [d|] eqn:E.
  - rewrite (skipn_nth_error_cons data _ d E). reflexivity.
  - apply nth_error_None in E.
    rewrite !skipn_all2 by lia. rewrite !firstn_nil. reflexivity.
Qed.

Lemma columnMinMax_window (data : list Q) (step i : nat) :
  columnMinMax data step i = fold_left scanDatum (window data step i) (1, -(1)).
Proof.
  unfold columnMinMax, window. rewrite scan_indices_window.
  rewrite Nat.add_0_r. reflexivity.
Qed.

Lemma firstn_then_firstn_skipn (l : list Q) (a b : nat) :
  firstn a l ++ firstn b (skipn a l) = firstn (a + b) l.
Proof.
  revert l. induction a as [|a IH]; intros [|y l]; cbn; try reflexivity.
  - rewrite firstn_nil. reflexivity.
  - rewrite IH. reflexivity.
Qed.

Lemma windows_concat (data : list Q) (step k : nat) :
  concat (map (window data step) (seq 0 k)) = firstn (k * step) data.
Proof.
  induction k as [|k IH]; [reflexivity|].
  rewrite seq_S, map_app, concat_app, IH. cbn [map concat Nat.add].
  rewrite app_nil_r. unfold window. rewrite firstn_then_firstn_skipn.
  f_equal. lia.
Qed.

Lemma window_incl (data : list Q) (step i : nat) (x : Q) :
  In x (window data step i) -> In x data.
Proof.
  unfold window. intro H.
  rewrite <- (firstn_skipn (i * step) data). apply in_or_app. right.
  rewrite <- (firstn_skipn step (skipn (i * step) data)).
  apply in_or_app. left. exact H.
Qed.

Lemma window_length (data : list Q) (step i : nat) :
  List.length (window data step i) = Nat.min step (List.length data - i * step).
Proof. unfold window. rewrite length_firstn, length_skipn. reflexivity. Qed.

Lemma flat_map_pairs_nth {A B : Type} (g h : A -> B) (l : list A) (i : nat) :
  nth_error (flat_map (fun x => [g x; h x]) l) (2 * i) = option_map g (nth_error l i) /\
  nth_error (flat_map (fun x => [g x; h x]) l) (2 * i + 1) = option_map h (nth_error l i).
Proof.
  revert i. induction l as [|x l IH]; intro i.
  - destruct i; split; reflexivity.
  - destruct i as [|i].
    + split; reflexivity.
    + replace (2 * S i)%nat with (S (S (2 * i))) by lia.
      replace (S (S (2 * i)) + 1)%nat with (S (S (2 * i + 1))) by lia.
      cbn [flat_map app nth_error]. apply IH.
Qed.

(** Column [i] of the path, for any buffer. *)
Lemma waveformPath_column (data : list Q) (width height i : nat) :
  (i < width)%nat ->
  let step := stepOf (List.length data) width in
  let amp := ofNat height / 2 in
  let mm := columnMinMax data step i in
  nth_error (waveformPath data width height) (2 * i)
    = Some (MoveTo (ofNat i) ((1 + fst mm) * amp)) /\
  nth_error (waveformPath data width height) (2 * i + 1)
    = Some (LineTo (ofNat i) ((1 + snd mm) * amp)).
Proof.
  intros Hi step amp mm. unfold waveformPath.
  pose (g := fun i => MoveTo (ofNat i)
                 ((1 + fst (columnMinMax data step i)) * amp)).
  pose (h := fun i => LineTo (ofNat i)
                 ((1 + snd (columnMinMax data step i)) * amp)).
  destruct (flat_map_pairs_nth g h (seq 0 width) i) as [H1 H2].
  rewrite nth_error_seq in H1, H2.
  apply Nat.ltb_lt in Hi. rewrite Hi in H1, H2.
  split; [exact H1|exact H2].
Qed.

Lemma scan_fst (l : list Q) (mm : Q * Q) :
  fst (fold_left scanDatum l mm) = fold_left minStep l (fst mm).
Proof.
  revert mm. induction l as [|d l IH]; intro mm; [reflexivity|].
  cbn [fold_left]. rewrite IH. reflexivity.
Qed.

Lemma scan_snd (l : list Q) (mm : Q * Q) :
  snd (fold_left scanDatum l mm) = fold_left maxStep l (snd mm).
Proof.
  revert mm. induction l as [|d l IH]; intro mm; [reflexivity|].
  cbn [fold_left]. rewrite IH. reflexivity.
Qed.

Lemma minFold_spec (l : list Q) (a : Q) :
  let m := fold_left minStep l a in
  m <= a /\ (forall x, In x l -> m <= x) /\ (m = a \/ In m l).
Proof.
  revert a. induction l as [|d l IH]; intro a; cbn [fold_left].
  - split; [lra|]. split; [intros x []|left; reflexivity].
  - destruct (IH (minStep a d)) as (H1 & H2 & H3).
    assert (Hs : minStep a d <= a /\ minStep a d <= d /\
                 (minStep a d = a \/ minStep a d = d)).
    { unfold minStep. destruct (Qltb d a) eqn:E.
      - apply Qltb_true in E. repeat split; try lra. right; reflexivity.
      - apply Qltb_false in E. repeat split; try lra. left; reflexivity. }
    destruct Hs as (S1 & S2 & S3).
    split; [lra|]. split.
    + intros x [<-|Hx]; [lra|auto].
    + destruct H3 as [H3|H3]; [|right; right; exact H3].
      destruct S3 as [S3|S3]; [left; congruence|right; left; congruence].
Qed.

Lemma maxFold_spec (l : list Q) (a : Q) :
  let m := fold_left maxStep l a in
  a <= m /\ (forall x, In x l -> x <= m) /\ (m = a \/ In m l).
Proof.
  revert a. induction l as [|d l IH]; intro a; cbn [fold_left].
  - split; [lra|]. split; [intros x []|left; reflexivity].
  - destruct (IH (maxStep a d)) as (H1 & H2 & H3).
    assert (Hs : a <= maxStep a d /\ d <= maxStep a d /\
                 (maxStep a d = a \/ maxStep a d = d)).
    { unfold maxStep. destruct (Qgtb d a) eqn:E.
      - apply Qgtb_true in E. repeat split; try lra. right; reflexivity.
      - apply Qgtb_false in E. repeat split; try lra. left; reflexivity. }
    destruct Hs as (S1 & S2 & S3).
    split; [lra|]. split.
    + intros x [<-|Hx]; [lra|auto].
    + destruct H3 as [H3|H3]; [|right; right; exact H3].
      destruct S3 as [S3|S3]; [left; congruence|right; left; congruence].
Qed.

(** [drawWaveform] appends the envelope path, between the set-up
    commands and [stroke], to what the canvas already shows; the slider
    variant then adds the playhead. *)
Lemma drawWaveform_draws_path (now : Q) (s : State) (b : AudioBuffer) :
  audioBuffer s = Some b ->
  let cmds := waveformCmds (channelData0 b) (canvasWidth s) (canvasHeight s) in
  ctx (Drag.drawWaveform s) = ctx s ++ cmds /\
  ctx (Knob.drawWaveform s) = ctx s ++ cmds /\
  (isPlaying s = false ->
   exists s', Scrub.drawWaveform now s = Ok s' /\
     ctx s' = (ctx s ++ cmds) ++
              [FillStyle "#fff";
               FillRect (pausedAt s / duration b * ofNat (canvasWidth s)) 0 2
                        (ofNat (canvasHeight s))]).
Proof.
  intros Hb cmds. unfold Drag.drawWaveform, Knob.drawWaveform. rewrite Hb.
  split; [reflexivity|]. split; [reflexivity|].
  intro Hp. unfold Scrub.drawWaveform, Scrub.drawWaveform_with. rewrite Hb.
  rewrite Scrub_getCurrentTime_idle by (fields; assumption). fields.
  rewrite Hb. eexists; split; reflexivity.
Qed.

(** What each column records, for any buffer: the least of 1.0 and the
    window's samples, and the greatest of -1.0 and the window's samples. *)
Lemma column_records (data : list Q) (step i : nat) :
  let mm := columnMinMax data step i in
  let win := window data step i in
  (fst mm <= 1 /\ (forall x, In x win -> fst mm <= x) /\
   (fst mm = 1 \/ In (fst mm) win)) /\
  (-(1) <= snd mm /\ (forall x, In x win -> x <= snd mm) /\
   (snd mm = -(1) \/ In (snd mm) win)).
Proof.
  cbn zeta. rewrite columnMinMax_window, scan_fst, scan_snd. cbn [fst snd].
  split; [apply minFold_spec|apply maxFold_spec].
Qed.

(** An empty window is drawn from the bottom edge to the top edge. *)
Lemma column_of_empty_window (data : list Q) (step i : nat) :
  window data step i = [] -> columnMinMax data step i = (1, -(1)).
Proof. intro H. rewrite columnMinMax_window, H. reflexivity. Qed.

Lemma column_min_max (data : list Q) (step i : nat) :
  (forall x, In x data -> -(1) <= x <= 1) ->
  window data step i <> [] ->
  IsMinOf (fst (columnMinMax data step i)) (window data step i) /\
  IsMaxOf (snd (columnMinMax data step i)) (window data step i).
Proof.
  intros Hrange Hne.
  destruct (column_records data step i)
    as ((A1 & A2 & A3) & (B1 & B2 & B3)).
  destruct (window data step i) as [|x0 rest] eqn:Ew; [congruence|].
  assert (Hx0 : -(1) <= x0 <= 1).
  { apply Hrange. apply (window_incl data step i). rewrite Ew. left; reflexivity. }
  assert (In0 : In x0 (x0 :: rest)) by (left; reflexivity).
  split; split; auto.
  - destruct A3 as [A3|A3].
    + exists x0. split; [exact In0|]. specialize (A2 x0 In0). rewrite A3 in *. lra.
    + eexists; split; [exact A3|reflexivity].
  - destruct B3 as [B3|B3].
    + exists x0. split; [exact In0|]. specialize (B2 x0 In0). rewrite B3 in *. lra.
    + eexists; split; [exact B3|reflexivity].
Qed.

Lemma Qeq_of_eq (a b : Q) : a = b -> a == b.
Proof. intros ->. reflexivity. Qed.

(** C8 as stated fails.  Five samples on four columns give step 2: the
    third window holds one sample although it is not the final one, and
    the fourth is empty, so it has no minimum.  A single sample of 2.0
    on one column is drawn from [(1 + 1) * amp], not [(1 + 2) * amp]. *)
Lemma envelope_claim_fails :
  ~ EnvelopeAsClaimed (channelData0 demoBuffer) 4 100 /\
  ~ EnvelopeAsClaimed [2] 1 100.
Proof.
  split.
  - intros [_ H]. destruct (H 3%nat) as [_ (mn & mx & [(y & Hy & _) _] & _)].
    + lia.
    + vm_compute in Hy. exact Hy.
  - intros [_ H]. destruct (H 0%nat) as [_ (mn & mx & [(y & Hy & Hm) _] & _ & E & _)].
    + lia.
    + vm_compute in Hy. destruct Hy as [<-|[]].
      assert (P : nth_error (waveformPath [2] 1 100) (2 * 0)
                  = Some (MoveTo (ofNat 0) ((1 + 1) * (ofNat 100 / 2))))
        by reflexivity.
      rewrite P in E.
      assert (E' := f_equal (fun o => match o with
                                      | Some (MoveTo _ y) => y
                                      | _ => 0
                                      end) E).
      change ((1 + 1) * (ofNat 100 / 2) = (1 + mn) * (ofNat 100 / 2)) in E'.
      apply Qeq_of_eq in E'. rewrite <- Hm in E'. vm_compute in E'. discriminate.
Qed.

(** The windows always cover the channel, in order. *)
Lemma windows_partition (data : list Q) (width : nat) :
  (1 <= width)%nat ->
  concat (map (window data (stepOf (List.length data) width)) (seq 0 width)) = data.
Proof.
  intro Hw. rewrite windows_concat. apply firstn_all2.
  destruct (stepOf_bounds (List.length data) width Hw) as [H _]. lia.
Qed.

(** C8, amended.  For a buffer whose samples lie in [-1, 1], and a width
    [w >= 1] whose final window is not empty
    ([(w - 1) * step < sampleCount]), the envelope is as claimed: the
    [w] windows of [step = ceil (sampleCount / w)] samples partition
    channel 0, all but the final one are full, and column [i] is drawn
    from [(1 + min) * (height / 2)] to [(1 + max) * (height / 2)] for
    the minimum and maximum of window [i]. *)
Theorem envelope_of_normalised_buffer (data : list Q) (width height : nat) :
  (1 <= width)%nat ->
  (forall x, In x data -> -(1) <= x <= 1) ->
  ((width - 1) * stepOf (List.length data) width < List.length data)%nat ->
  EnvelopeAsClaimed data width height.
Proof.
  intros Hw Hrange Hlast. unfold EnvelopeAsClaimed. cbn zeta.
  set (step := stepOf (List.length data) width) in *.
  destruct (stepOf_bounds (List.length data) width Hw) as [Hcover _].
  fold step in Hcover.
  assert (Hstep : (1 <= step)%nat) by nia.
  split; [apply windows_partition; exact Hw|].
  intros i Hi.
  assert (Hstart : (i * step < List.length data)%nat) by nia.
  split.
  - intro Hnf. rewrite window_length. nia.
  - exists (fst (columnMinMax data step i)), (snd (columnMinMax data step i)).
    assert (Hne : window data step i <> []).
    { intro E. apply (f_equal (@List.length Q)) in E.
      rewrite window_length in E. cbn [List.length] in E. lia. }
    destruct (column_min_max data step i Hrange Hne) as [Hmin Hmax].
    destruct (waveformPath_column data width height i Hi) as [P1 P2].
    auto.
Qed.

Lemma envelope_of_normalised_buffer_witness :
  EnvelopeAsClaimed [0; 1 # 2; -(1 # 2); 1 # 4; 0; 1; -(1)] 3 100.
Proof.
  apply envelope_of_normalised_buffer.
  - lia.
  - intros x H. cbn [In] in H.
    repeat (destruct H as [<-|H]; [split; vm_compute; discriminate|]).
    destruct H.
  - vm_compute. lia.
Defined.

(** ** Indices read by the envelope loop *)

(** C10 as stated fails: five samples on four columns give step 2, and
    column 3 reads index 6. *)
Lemma envelope_reads_past_the_end :
  ~ AccessesInBounds (channelData0 demoBuffer) 4.
Proof.
  intro H. apply (H 3%nat 0%nat).
  - lia.
  - vm_compute. lia.
  - reflexivity.
Qed.

(** C10, amended.  For width [w >= 1] and [step = ceil (sampleCount / w)]
    the loop reads exactly the indices below [w * step], which is at
    least [sampleCount]: every existing sample is read, a read is in
    bounds exactly when its index is below [sampleCount], and all reads
    are in bounds exactly when [w * step = sampleCount]. *)
Theorem envelope_accesses (data : list Q) (width : nat) :
  (1 <= width)%nat ->
  let step := stepOf (List.length data) width in
  (List.length data <= width * step)%nat /\
  (forall i j, (i < width)%nat -> (j < step)%nat ->
     (i * step + j < width * step)%nat /\
     (sampleAt data (i * step + j) <> None <->
      (i * step + j < List.length data)%nat)) /\
  (forall idx, (idx < List.length data)%nat ->
     exists i j, (i < width)%nat /\ (j < step)%nat /\ idx = (i * step + j)%nat) /\
  (AccessesInBounds data width <-> (width * step = List.length data)%nat).
Proof.
  intros Hw step.
  destruct (stepOf_bounds (List.length data) width Hw) as [Hcover Hlt].
  fold step in Hcover, Hlt.
  split; [exact Hcover|]. split; [|split].
  - intros i j Hi Hj. split; [nia|]. unfold sampleAt. apply nth_error_Some.
  - intros idx Hidx.
    assert (Hstep : (1 <= step)%nat) by nia.
    exists (idx / step)%nat, (idx mod step)%nat.
    assert (Hdm := Nat.div_mod_eq idx step).
    assert (Hm : (idx mod step < step)%nat) by (apply Nat.mod_upper_bound; lia).
    split; [|split; [exact Hm|lia]].
    apply Nat.Div0.div_lt_upper_bound. lia.
  - unfold AccessesInBounds. fold step. split.
    + intro H.
      destruct (Nat.eq_dec (width * step) (List.length data)) as [E|NE]; [exact E|].
      exfalso.
      assert (Hstep : (1 <= step)%nat) by nia.
      apply (H (width - 1)%nat (step - 1)%nat); [lia|lia|].
      unfold sampleAt. apply nth_error_None. nia.
    + intros E i j Hi Hj. unfold sampleAt. apply nth_error_Some. nia.
Qed.

Lemma envelope_accesses_witness :
  AccessesInBounds [0; 1 # 2; -(1 # 2); 1 # 4; 0; 1] 3 <->
  (3 * stepOf 6 3 = 6)%nat.
Proof.
  destruct (envelope_accesses [0; 1 # 2; -(1 # 2); 1 # 4; 0; 1] 3) as (_ & _ & _ & H).
  - lia.
  - exact H.
Defined.

(** * Further properties of the code *)

(** ** The slider variant under arbitrary events *)

Ltac wf_crush :=
  unfold wellFormed, graphReady, sameGraph in *; fields;
  intuition (try congruence; try discriminate).

Lemma Scrub_stopAudio_with_frame (now : Q) (fuel : nat) (s : State) :
  exists s',
    Scrub.stopAudio_with (Scrub.getCurrentTime_fuel now fuel) s = Ok s' /\
    isPlaying s' = false /\ sourceNode s' = None /\ pausedAt s' = 0 /\
    sameGraph s s' /\ playbackRate s' = playbackRate s /\
    reverbAmount s' = reverbAmount s.
Proof.
  unfold Scrub.stopAudio_with, Scrub.drawWaveform_with. fields.
  destruct (audioBuffer s) as [b|] eqn:Eb.
  - rewrite Scrub_getCurrentTime_fuel_idle by reflexivity. fields.
    rewrite Eb. eexists; split; [reflexivity|]. wf_crush.
  - eexists; split; [reflexivity|]. wf_crush.
Qed.








Lemma setupReverb_ready (s : State) :
  graphReady (setupReverb s) /\
  gains (setupReverb s) = Some (1 - reverbAmount s, reverbAmount s * 2).
Proof.
  unfold setupReverb, updateReverbMix, gains, graphReady. fields.
  repeat split; discriminate.
Qed.




(** ** The knob variants under arbitrary events *)









(** ** Without a buffer; loading *)




(** ** Play, pause, resume *)

Lemma graphReady_same (s s' : State) :
  sameGraph s s' -> graphReady s -> graphReady s'.
Proof. wf_crush. Qed.

Lemma Drag_playAudio_frame (now : Q) (s : State) (b : AudioBuffer) :
  audioBuffer s = Some b -> graphReady s ->
  exists s',
    Drag.playAudio now s = Ok s' /\
    isPlaying s' = true /\
    sourceNode s' = Some {| src_rate := playbackRate s; src_offset := pausedAt s |} /\
    startTime s' = now /\ pausedAt s' = pausedAt s /\
    playbackRate s' = playbackRate s /\ sameGraph s s' /\
    wasPlaying s' = wasPlaying s /\ seekSliderValue s' = seekSliderValue s.
Proof.
  intros Hb Hg.
  destruct (graphReady_cases s Hg) as (d & r & w & g & Hd & Hr & Hw & Hgn).
  unfold Drag.playAudio. rewrite Hb, Hd, Hr, Hw, Hgn.
  eexists; split; [reflexivity|]. wf_crush.
Qed.

Lemma Drag_pauseAudio_frame (now : Q) (s : State) (b : AudioBuffer) :
  audioBuffer s = Some b ->
  exists s',
    Drag.pauseAudio now s = Ok s' /\
    isPlaying s' = false /\ sourceNode s' = None /\
    pausedAt s' =
      (if Qgtb (clockPosition now s) (duration b)
       then duration b else clockPosition now s) /\
    startTime s' = startTime s /\
    playbackRate s' = playbackRate s /\ sameGraph s s'.
Proof.
  intros Hb. unfold Drag.pauseAudio. fields. rewrite Hb.
  fold (clockPosition now s).
  eexists; split; [reflexivity|].
  destruct (Qgtb (clockPosition now s) (duration b)); wf_crush.
Qed.

(** X5.  Draggable-slider variant: play at [t1], pause at [t2], play
    again at [t3].  The pause holds the held position plus the elapsed
    time scaled by the rate, clamped to the duration; the second play
    starts the source at exactly that offset and the position read at
    [t3] is the held one. *)
Theorem Drag_pause_then_resume (t1 t2 t3 : Q) (s : State) (b : AudioBuffer) :
  audioBuffer s = Some b ->
  graphReady s ->
  isPlaying s = false ->
  exists s1 s2 s3,
    Drag.togglePlayPause t1 s = Ok s1 /\
    Drag.togglePlayPause t2 s1 = Ok s2 /\
    Drag.togglePlayPause t3 s2 = Ok s3 /\
    isPlaying s1 = true /\ isPlaying s2 = false /\ isPlaying s3 = true /\
    pausedAt s2 =
      (if Qgtb (pausedAt s + (t2 - t1) * playbackRate s) (duration b)
       then duration b else pausedAt s + (t2 - t1) * playbackRate s) /\
    sourceNode s3 =
      Some {| src_rate := playbackRate s; src_offset := pausedAt s2 |} /\
    clockPosition t3 s3 == pausedAt s2.
Proof.
  intros Hb Hg Hp.
  destruct (Drag_playAudio_frame t1 s b Hb Hg)
    as (s1 & E1 & P1 & _ & S1 & Q1 & R1 & G1 & _).
  assert (B1 : audioBuffer s1 = Some b) by wf_crush.
  destruct (Drag_pauseAudio_frame t2 s1 b B1)
    as (s2 & E2 & P2 & _ & Q2 & _ & R2 & G2).
  assert (B2 : audioBuffer s2 = Some b) by wf_crush.
  assert (Hg2 : graphReady s2)
    by (apply (graphReady_same s1); [|apply (graphReady_same s)]; assumption).
  destruct (Drag_playAudio_frame t3 s2 b B2 Hg2)
    as (s3 & E3 & P3 & N3 & S3 & Q3 & R3 & _).
  exists s1, s2, s3.
  unfold Drag.togglePlayPause. rewrite Hp, P1, P2.
  repeat split; auto.
  - rewrite Q2. unfold clockPosition. rewrite S1, Q1, R1. reflexivity.
  - rewrite N3, R2, R1. reflexivity.
  - unfold clockPosition. rewrite S3, Q3. ring.
Qed.

Lemma Drag_pause_then_resume_witness :
  exists s1 s2 s3,
    Drag.togglePlayPause 100 demoLoaded = Ok s1 /\
    Drag.togglePlayPause 104 s1 = Ok s2 /\
    Drag.togglePlayPause 110 s2 = Ok s3 /\
    isPlaying s1 = true /\ isPlaying s2 = false /\ isPlaying s3 = true /\
    pausedAt s2 =
      (if Qgtb (pausedAt demoLoaded + (104 - 100) * playbackRate demoLoaded)
               (duration demoBuffer)
       then duration demoBuffer
       else pausedAt demoLoaded + (104 - 100) * playbackRate demoLoaded) /\
    sourceNode s3 =
      Some {| src_rate := playbackRate demoLoaded; src_offset := pausedAt s2 |} /\
    clockPosition 110 s3 == pausedAt s2.
Proof.
  apply (Drag_pause_then_resume 100 104 110 demoLoaded demoBuffer).
  - reflexivity.
  - repeat split; discriminate.
  - reflexivity.
Defined.

(** X6.  Slider variant and plain-knob variant (the same code): play at
    [t1] from held position [p0], pause at [t2].  While playing the
    clock model reads [p0 + (p0 + elapsed) * rate], and the pause holds
    [(p0 + elapsed) * rate]: the true position [p0 + elapsed] exactly
    when the rate is 1. *)
Theorem Scrub_play_then_pause (t1 t2 : Q) (s : State) (b : AudioBuffer) :
  audioBuffer s = Some b ->
  graphReady s ->
  isPlaying s = false ->
  exists s1 s2,
    Scrub.togglePlayPause t1 s = Ok s1 /\
    Scrub.togglePlayPause t2 s1 = Ok s2 /\
    Knob.togglePlayPause t1 s = Ok s1 /\
    Knob.togglePlayPause t2 s1 = Ok s2 /\
    isPlaying s1 = true /\ isPlaying s2 = false /\
    clockPosition t2 s1 ==
      pausedAt s + (pausedAt s + (t2 - t1)) * playbackRate s /\
    pausedAt s2 == (pausedAt s + (t2 - t1)) * playbackRate s /\
    (playbackRate s == 1 -> pausedAt s2 == pausedAt s + (t2 - t1)).
Proof.
  intros Hb Hg Hp.
  destruct (graphReady_cases s Hg) as (d & r & w & g & Hd & Hr & Hw & Hgn).
  unfold Scrub.togglePlayPause at 1, Knob.togglePlayPause at 1. rewrite Hp.
  unfold Scrub.playAudio, Knob.playAudio. rewrite Hb, Hd, Hr, Hw, Hgn.
  eexists. eexists. split; [reflexivity|].
  unfold Scrub.togglePlayPause, Knob.togglePlayPause, Scrub.pauseAudio, Knob.pauseAudio.
  fields. split; [reflexivity|]. split; [reflexivity|]. split; [reflexivity|].
  fields. split; [reflexivity|]. split; [reflexivity|].
  unfold clockPosition. fields.
  split; [ring|]. split; [ring|].
  intro H1. rewrite H1. ring.
Qed.

Lemma Scrub_play_then_pause_witness :
  exists s1 s2,
    Scrub.togglePlayPause 100 demoLoaded = Ok s1 /\
    Scrub.togglePlayPause 104 s1 = Ok s2 /\
    Knob.togglePlayPause 100 demoLoaded = Ok s1 /\
    Knob.togglePlayPause 104 s1 = Ok s2 /\
    isPlaying s1 = true /\ isPlaying s2 = false /\
    clockPosition 104 s1 ==
      pausedAt demoLoaded
      + (pausedAt demoLoaded + (104 - 100)) * playbackRate demoLoaded /\
    pausedAt s2 == (pausedAt demoLoaded + (104 - 100)) * playbackRate demoLoaded /\
    (playbackRate demoLoaded == 1 ->
     pausedAt s2 == pausedAt demoLoaded + (104 - 100)).
Proof.
  apply (Scrub_play_then_pause 100 104 demoLoaded demoBuffer).
  - reflexivity.
  - repeat split; discriminate.
  - reflexivity.
Defined.

(** ** Sequences of rate changes *)

Section RateChangeSequences.

Variable getCurrentTime : Q -> State -> outcome (Q * State).
Variable handleSpeedChange : Q -> Q -> State -> outcome State.

Hypothesis change_while_playing :
  forall now r2 s b,
    isPlaying s = true -> audioBuffer s = Some b ->
    exists p s0 s1,
      getCurrentTime now s = Ok (p, s0) /\
      handleSpeedChange now r2 s = Ok s1 /\
      startTime s1 = now /\ pausedAt s1 = p /\ playbackRate s1 = r2 /\
      audioBuffer s1 = Some b /\ isPlaying s1 = isPlaying s0 /\
      p <= duration b /\
      (clockPosition now s <= duration b ->
       p = clockPosition now s /\ isPlaying s1 = true).

Hypothesis read_within :
  forall now s b,
    isPlaying s = true -> audioBuffer s = Some b ->
    clockPosition now s <= duration b ->
    getCurrentTime now s = Ok (clockPosition now s, s).

Lemma rateChanges_integrate (changes : list (Q * Q)) :
  forall (s : State) (b : AudioBuffer) (final : Q),
    isPlaying s = true -> audioBuffer s = Some b ->
    piecesWithin (duration b) (pausedAt s) (startTime s) (playbackRate s) changes ->
    pieceEnd (pausedAt s) (startTime s) (playbackRate s) changes final <= duration b ->
    exists s',
      rateChanges handleSpeedChange changes s = Ok s' /\
      isPlaying s' = true /\
      getCurrentTime final s' =
        Ok (pieceEnd (pausedAt s) (startTime s) (playbackRate s) changes final, s').
Proof.
  induction changes as [|[t r] rest IH]; intros s b final Hp Hb Hw Hf.
  - exists s. cbn [rateChanges pieceEnd] in *. repeat split; auto.
    apply (read_within final s b Hp Hb Hf).
  - cbn [rateChanges pieceEnd piecesWithin] in *. destruct Hw as [Hw1 Hw2].
    destruct (change_while_playing t r s b Hp Hb)
      as (p & s0 & s1 & _ & E & Hs & Hq & Hr & Hb1 & _ & _ & Hk).
    destruct (Hk Hw1) as [-> Hp1].
    rewrite E. cbn [bind].
    unfold clockPosition in Hq.
    destruct (IH s1 b final Hp1 Hb1) as (s' & E' & P' & R').
    + rewrite Hq, Hs, Hr. exact Hw2.
    + rewrite Hq, Hs, Hr. exact Hf.
    + exists s'. rewrite Hq, Hs, Hr in R'. auto.
Qed.

End RateChangeSequences.

(** X7.  Any number of rate changes while playing, none of them after
    the end of the track: every change succeeds, the engine keeps
    playing, and the position read afterwards is the piecewise sum of
    elapsed time times the rate in force ([pieceEnd]).  All three
    variants. *)
Theorem rate_changes_accumulate (changes : list (Q * Q)) (final : Q)
    (s : State) (b : AudioBuffer) :
  isPlaying s = true ->
  audioBuffer s = Some b ->
  piecesWithin (duration b) (pausedAt s) (startTime s) (playbackRate s) changes ->
  pieceEnd (pausedAt s) (startTime s) (playbackRate s) changes final <= duration b ->
  (exists s', rateChanges Scrub.handleSpeedChange changes s = Ok s' /\
     isPlaying s' = true /\
     Scrub.getCurrentTime final s' =
       Ok (pieceEnd (pausedAt s) (startTime s) (playbackRate s) changes final, s')) /\
  (exists s', rateChanges Drag.handleSpeedChange changes s = Ok s' /\
     isPlaying s' = true /\
     Drag.getCurrentTime final s' =
       Ok (pieceEnd (pausedAt s) (startTime s) (playbackRate s) changes final, s')) /\
  (exists s', rateChanges Knob.handleSpeedChange changes s = Ok s' /\
     isPlaying s' = true /\
     Knob.getCurrentTime final s' =
       Ok (pieceEnd (pausedAt s) (startTime s) (playbackRate s) changes final, s')).
Proof.
  intros Hp Hb Hw Hf. repeat split.
  - apply (rateChanges_integrate Scrub.getCurrentTime Scrub.handleSpeedChange
             Scrub_handleSpeedChange_playing Scrub_getCurrentTime_within
             changes s b final Hp Hb Hw Hf).
  - apply (rateChanges_integrate Drag.getCurrentTime Drag.handleSpeedChange
             Drag_handleSpeedChange_playing Drag_getCurrentTime_within
             changes s b final Hp Hb Hw Hf).
  - apply (rateChanges_integrate Knob.getCurrentTime Knob.handleSpeedChange
             Knob_handleSpeedChange_playing Knob_getCurrentTime_within
             changes s b final Hp Hb Hw Hf).
Qed.

Lemma rate_changes_accumulate_witness :
  exists s', rateChanges Drag.handleSpeedChange [(102, 3 # 2); (104, 1 # 2)] demoDragPlaying = Ok s' /\
     isPlaying s' = true /\
     Drag.getCurrentTime 106 s' =
       Ok (pieceEnd (pausedAt demoDragPlaying) (startTime demoDragPlaying)
             (playbackRate demoDragPlaying) [(102, 3 # 2); (104, 1 # 2)] 106, s').
Proof.
  destruct (rate_changes_accumulate [(102, 3 # 2); (104, 1 # 2)] 106
              demoDragPlaying demoBuffer) as (_ & H & _).
  - reflexivity.
  - reflexivity.
  - cbn [piecesWithin]. repeat split; vm_compute; discriminate.
  - vm_compute. discriminate.
  - exact H.
Defined.

(** ** Rate changes at the edges *)

(** X8.  A rate change made while playing but after the clock has run
    past the end of the track does not leave the engine stopped at 0:
    the read inside it stops playback, and the handler then writes the
    duration into the held position.  The engine ends paused at the end
    of the track with the new rate stored.  All three variants. *)
Theorem speed_change_past_the_end (now r : Q) (s : State) (b : AudioBuffer) :
  isPlaying s = true ->
  audioBuffer s = Some b ->
  duration b < clockPosition now s ->
  (exists s1, Scrub.handleSpeedChange now r s = Ok s1 /\
     isPlaying s1 = false /\ sourceNode s1 = None /\
     pausedAt s1 = duration b /\ playbackRate s1 = r) /\
  (exists s1, Drag.handleSpeedChange now r s = Ok s1 /\
     isPlaying s1 = false /\ sourceNode s1 = None /\
     pausedAt s1 = duration b /\ playbackRate s1 = r) /\
  (exists s1, Knob.handleSpeedChange now r s = Ok s1 /\
     isPlaying s1 = false /\ sourceNode s1 = None /\
     pausedAt s1 = duration b /\ playbackRate s1 = r).
Proof.
  intros Hp Hb Hlt. repeat split.
  - unfold Scrub.handleSpeedChange. rewrite Hp.
    destruct (Scrub_getCurrentTime_beyond now s b Hp Hb Hlt)
      as (s' & E & H1 & H2 & _).
    rewrite E. fields. rewrite H2. fields.
    eexists; split; [reflexivity|]. fields. auto.
  - unfold Drag.handleSpeedChange. rewrite Hp.
    rewrite (Drag_getCurrentTime_beyond now s b Hp Hb Hlt).
    destruct (Drag_stopAudio_spec s) as (H1 & H2 & _).
    fields. rewrite H2. fields.
    eexists; split; [reflexivity|]. fields. auto.
  - unfold Knob.handleSpeedChange. rewrite Hp.
    rewrite (Knob_getCurrentTime_beyond now s b Hp Hb Hlt).
    destruct (Knob_stopAudio_spec s) as (H1 & H2 & _).
    fields. rewrite H2. fields.
    eexists; split; [reflexivity|]. fields. auto.
Qed.

Lemma speed_change_past_the_end_witness :
  exists s1, Scrub.handleSpeedChange 120 (1 # 2) demoPlaying = Ok s1 /\
     isPlaying s1 = false /\ sourceNode s1 = None /\
     pausedAt s1 = duration demoBuffer /\ playbackRate s1 = 1 # 2.
Proof.
  destruct (speed_change_past_the_end 120 (1 # 2) demoPlaying demoBuffer) as (H & _).
  - reflexivity.
  - reflexivity.
  - vm_compute. reflexivity.
  - exact H.
Defined.

(** X9.  A rate change while not playing touches nothing but the stored
    rate, and the next play creates its source node with that rate at
    the held position.  All three variants. *)
Theorem idle_speed_change_is_used_by_next_play (now later r : Q) (s : State)
    (b : AudioBuffer) :
  isPlaying s = false ->
  audioBuffer s = Some b ->
  graphReady s ->
  Scrub.handleSpeedChange now r s = Ok (set_playbackRate r s) /\
  Drag.handleSpeedChange now r s = Ok (set_playbackRate r s) /\
  Knob.handleSpeedChange now r s = Ok (set_playbackRate r s) /\
  (exists s2, Scrub.togglePlayPause later (set_playbackRate r s) = Ok s2 /\
     sourceNode s2 = Some {| src_rate := r; src_offset := pausedAt s |} /\
     playbackRate s2 = r /\ pausedAt s2 = pausedAt s) /\
  (exists s2, Drag.togglePlayPause later (set_playbackRate r s) = Ok s2 /\
     sourceNode s2 = Some {| src_rate := r; src_offset := pausedAt s |} /\
     playbackRate s2 = r /\ pausedAt s2 = pausedAt s) /\
  (exists s2, Knob.togglePlayPause later (set_playbackRate r s) = Ok s2 /\
     sourceNode s2 = Some {| src_rate := r; src_offset := pausedAt s |} /\
     playbackRate s2 = r /\ pausedAt s2 = pausedAt s).
Proof.
  intros Hp Hb Hg.
  destruct (graphReady_cases s Hg) as (d & rv & w & g & Hd & Hr & Hw & Hgn).
  unfold Scrub.handleSpeedChange, Drag.handleSpeedChange, Knob.handleSpeedChange,
    Scrub.togglePlayPause, Drag.togglePlayPause, Knob.togglePlayPause,
    Scrub.playAudio, Drag.playAudio, Knob.playAudio.
  fields. rewrite Hp, Hb, Hd, Hr, Hw, Hgn. fields.
  repeat split; try reflexivity;
    (eexists; split; [reflexivity|]); fields; repeat split; reflexivity.
Qed.

Lemma idle_speed_change_is_used_by_next_play_witness :
  Scrub.handleSpeedChange 50 (3 # 4) demoLoaded = Ok (set_playbackRate (3 # 4) demoLoaded).
Proof.
  destruct (idle_speed_change_is_used_by_next_play 50 60 (3 # 4) demoLoaded demoBuffer)
    as (H & _).
  - reflexivity.
  - reflexivity.
  - repeat split; discriminate.
  - exact H.
Defined.

(** X10.  After the end-of-track stop, pressing play starts again from
    the beginning: the source starts at offset 0 with the rate
    unchanged and the position reads 0.  All three variants. *)
Theorem play_after_the_end_restarts (now later : Q) (s : State) (b : AudioBuffer) :
  isPlaying s = true ->
  audioBuffer s = Some b ->
  graphReady s ->
  duration b < clockPosition now s ->
  (exists s1 s2,
     Scrub.getCurrentTime now s = Ok (duration b, s1) /\
     Scrub.togglePlayPause later s1 = Ok s2 /\
     isPlaying s2 = true /\
     sourceNode s2 = Some {| src_rate := playbackRate s; src_offset := 0 |} /\
     clockPosition later s2 == 0) /\
  (exists s1 s2,
     Drag.getCurrentTime now s = Ok (duration b, s1) /\
     Drag.togglePlayPause later s1 = Ok s2 /\
     isPlaying s2 = true /\
     sourceNode s2 = Some {| src_rate := playbackRate s; src_offset := 0 |} /\
     clockPosition later s2 == 0) /\
  (exists s1 s2,
     Knob.getCurrentTime now s = Ok (duration b, s1) /\
     Knob.togglePlayPause later s1 = Ok s2 /\
     isPlaying s2 = true /\
     sourceNode s2 = Some {| src_rate := playbackRate s; src_offset := 0 |} /\
     clockPosition later s2 == 0).
Proof.
  intros Hp Hb Hg Hlt.
  destruct (graphReady_cases s Hg) as (d & rv & w & g & Hd & Hr & Hw & Hgn).
  repeat split.
  - unfold Scrub.getCurrentTime. rewrite Scrub_getCurrentTime_unfold, Hp, Hb.
    cbn [negb]. apply Qgtb_true in Hlt. rewrite Hlt.
    destruct (Scrub_stopAudio_with_frame now 0 s)
      as (s1 & E & H1 & H2 & H3 & G & R & _).
    rewrite E. cbn [bind]. exists s1.
    unfold Scrub.togglePlayPause, Scrub.playAudio. rewrite H1.
    destruct G as (G1 & G2 & G3 & G4 & G5).
    rewrite G1, G2, G3, G4, G5, Hb, Hd, Hr, Hw, Hgn.
    eexists. split; [reflexivity|]. split; [reflexivity|]. fields.
    rewrite H3, R. repeat split; try reflexivity.
    unfold clockPosition. fields. rewrite H3. ring.
  - rewrite (Drag_getCurrentTime_beyond now s b Hp Hb Hlt).
    exists (Drag.stopAudio s).
    unfold Drag.togglePlayPause, Drag.playAudio, Drag.stopAudio, Drag.drawWaveform.
    fields. rewrite Hb. fields. rewrite Hb, Hd, Hr, Hw, Hgn.
    eexists. split; [reflexivity|]. split; [reflexivity|]. fields.
    repeat split; try reflexivity. unfold clockPosition. fields. ring.
  - rewrite (Knob_getCurrentTime_beyond now s b Hp Hb Hlt).
    exists (Knob.stopAudio s).
    unfold Knob.togglePlayPause, Knob.playAudio, Knob.stopAudio, Knob.drawWaveform.
    fields. rewrite Hb. fields. rewrite Hb, Hd, Hr, Hw, Hgn.
    eexists. split; [reflexivity|]. split; [reflexivity|]. fields.
    repeat split; try reflexivity. unfold clockPosition. fields. ring.
Qed.

Lemma play_after_the_end_restarts_witness :
  exists s1 s2,
    Scrub.getCurrentTime 120 demoPlaying = Ok (duration demoBuffer, s1) /\
    Scrub.togglePlayPause 130 s1 = Ok s2 /\
    isPlaying s2 = true /\
    sourceNode s2 = Some {| src_rate := playbackRate demoPlaying; src_offset := 0 |} /\
    clockPosition 130 s2 == 0.
Proof.
  destruct (play_after_the_end_restarts 120 130 demoPlaying demoBuffer) as (H & _).
  - reflexivity.
  - reflexivity.
  - repeat split; discriminate.
  - vm_compute. reflexivity.
  - exact H.
Defined.

(** ** Dragging the seek slider; progress ticks *)

Lemma last_cons_default (t d : Q) (rest : list Q) :
  last (t :: rest) d = last rest t.
Proof.
  revert t d. induction rest as [|x rest IH]; intros t d; [reflexivity|].
  change (last (t :: x :: rest) d) with (last (x :: rest) d).
  rewrite !IH. reflexivity.
Qed.

Lemma seekMoves_frame (targets : list Q) :
  forall (s : State) (b : AudioBuffer),
    audioBuffer s = Some b ->
    pausedAt (seekMoves targets s) = last targets (pausedAt s) /\
    isPlaying (seekMoves targets s) = isPlaying s /\
    sourceNode (seekMoves targets s) = sourceNode s /\
    wasPlaying (seekMoves targets s) = wasPlaying s /\
    playbackRate (seekMoves targets s) = playbackRate s /\
    startTime (seekMoves targets s) = startTime s /\
    sameGraph s (seekMoves targets s).
Proof.
  unfold seekMoves.
  induction targets as [|t rest IH]; intros s b Hb; cbn [fold_left].
  - wf_crush.
  - assert (F : Drag.handleSeek t s =
                set_currentTimeDisplay (formatTime t) (set_pausedAt t s))
      by (unfold Drag.handleSeek; rewrite Hb; reflexivity).
    rewrite F.
    destruct (IH (set_currentTimeDisplay (formatTime t) (set_pausedAt t s)) b Hb)
      as (H1 & H2 & H3 & H4 & H5 & H6 & H7).
    rewrite H1, H2, H3, H4, H5, H6. fields.
    rewrite last_cons_default. wf_crush.
Qed.

(** X11.  Draggable-slider variant, one whole drag from any state with a
    buffer: press, any number of [input] events, release.  While the
    thumb is dragged nothing plays; on release playback resumes exactly
    if it was running before, the position is the last target (each
    [input] overwrites the previous one), and the second release event
    the page delivers ([change] and [mouseup] both run the handler)
    changes nothing. *)
Theorem Drag_seek_gesture (now : Q) (targets : list Q) (s : State) (b : AudioBuffer) :
  audioBuffer s = Some b ->
  graphReady s ->
  wasPlaying s = false ->
  (isPlaying s = false -> sourceNode s = None) ->
  last targets (pausedAt s) <= duration b ->
  let dragging := seekMoves targets (Drag.handleSeekStart s) in
  isPlaying dragging = false /\ sourceNode dragging = None /\
  exists s3,
    Drag.handleSeekEnd now dragging = Ok s3 /\
    Drag.handleSeekEnd now s3 = Ok s3 /\
    isPlaying s3 = isPlaying s /\
    pausedAt s3 = last targets (pausedAt s) /\
    exists p, Drag.getCurrentTime now s3 = Ok (p, s3) /\
              p == last targets (pausedAt s).
Proof.
  intros Hb Hg Hw Hsrc Ht dragging.
  assert (Hb0 : audioBuffer (Drag.handleSeekStart s) = Some b).
  { unfold Drag.handleSeekStart, internalPause.
    destruct (isPlaying s); fields; exact Hb. }
  destruct (seekMoves_frame targets (Drag.handleSeekStart s) b Hb0)
    as (H1 & H2 & H3 & H4 & H5 & H6 & H7).
  fold dragging in H1, H2, H3, H4, H5, H6, H7.
  unfold Drag.handleSeekStart, internalPause in H1, H2, H3, H4, H5, H6, H7.
  destruct (isPlaying s) eqn:Hp; fields.
  - split; [exact H2|]. split; [exact H3|].
    assert (Bd : audioBuffer dragging = Some b) by wf_crush.
    assert (Gd : graphReady dragging) by wf_crush.
    destruct (Drag_playAudio_frame now dragging b Bd Gd)
      as (s3 & E & P & _ & S & Q & R & G & W & _).
    unfold Drag.handleSeekEnd at 1. rewrite H4, E. cbn [bind].
    eexists. split; [reflexivity|].
    unfold Drag.handleSeekEnd. fields.
    split; [reflexivity|]. split; [exact P|].
    split; [rewrite Q; exact H1|].
    assert (Hc : clockPosition now (set_wasPlaying false s3)
                 == last targets (pausedAt s)).
    { unfold clockPosition. fields. rewrite S, Q, H1. ring. }
    exists (clockPosition now (set_wasPlaying false s3)). split; [|exact Hc].
    apply (Drag_getCurrentTime_within now _ b); fields; auto.
    + wf_crush.
    + rewrite Hc. exact Ht.
  - rewrite Hp in H2. split; [exact H2|]. split.
    + rewrite H3. apply Hsrc. reflexivity.
    + exists dragging. unfold Drag.handleSeekEnd. rewrite H4, Hw.
      split; [reflexivity|]. split; [reflexivity|].
      split; [exact H2|]. split; [exact H1|].
      exists (pausedAt dragging). split; [|rewrite H1; reflexivity].
      apply Drag_getCurrentTime_idle. exact H2.
Qed.

Lemma Drag_seek_gesture_witness :
  let dragging := seekMoves [3; 7; 4] (Drag.handleSeekStart demoDragPlaying) in
  isPlaying dragging = false /\ sourceNode dragging = None /\
  exists s3,
    Drag.handleSeekEnd 103 dragging = Ok s3 /\
    Drag.handleSeekEnd 103 s3 = Ok s3 /\
    isPlaying s3 = isPlaying demoDragPlaying /\
    pausedAt s3 = last [3; 7; 4] (pausedAt demoDragPlaying) /\
    exists p, Drag.getCurrentTime 103 s3 = Ok (p, s3) /\
              p == last [3; 7; 4] (pausedAt demoDragPlaying).
Proof.
  apply (Drag_seek_gesture 103 [3; 7; 4] demoDragPlaying demoBuffer).
  - reflexivity.
  - repeat split; discriminate.
  - reflexivity.
  - discriminate.
  - vm_compute. discriminate.
Defined.

(** X12.  A progress tick of the knob variants while playing.  Short of
    the end it moves the seek slider and the time label to the clock
    position and leaves the anchor alone.  Past the end it stops the
    engine (held position 0) but leaves the seek slider and the label
    at the duration, and every later tick does nothing. *)
Theorem knob_progress_tick (now : Q) (s : State) (b : AudioBuffer) :
  isPlaying s = true ->
  audioBuffer s = Some b ->
  (clockPosition now s <= duration b ->
   exists s1,
     Drag.updateProgress now s = Ok s1 /\ Knob.updateProgress now s = Ok s1 /\
     seekSliderValue s1 = clockPosition now s /\
     currentTimeDisplay s1 = formatTime (clockPosition now s) /\
     isPlaying s1 = true /\ pausedAt s1 = pausedAt s /\
     startTime s1 = startTime s /\ playbackRate s1 = playbackRate s) /\
  (duration b < clockPosition now s ->
   exists s1,
     Drag.updateProgress now s = Ok s1 /\ Knob.updateProgress now s = Ok s1 /\
     Stopped s1 /\
     seekSliderValue s1 = duration b /\
     currentTimeDisplay s1 = formatTime (duration b) /\
     forall later, Drag.updateProgress later s1 = Ok s1 /\
                   Knob.updateProgress later s1 = Ok s1).
Proof.
  intros Hp Hb. split.
  - intro Hle. unfold Drag.updateProgress, Knob.updateProgress. rewrite Hp.
    cbn [negb].
    rewrite (Drag_getCurrentTime_within now s b Hp Hb Hle).
    rewrite (Knob_getCurrentTime_within now s b Hp Hb Hle). fields.
    eexists. split; [reflexivity|]. split; [reflexivity|]. fields.
    repeat split; auto.
  - intro Hlt. unfold Drag.updateProgress, Knob.updateProgress. rewrite Hp.
    cbn [negb].
    rewrite (Drag_getCurrentTime_beyond now s b Hp Hb Hlt).
    rewrite (Knob_getCurrentTime_beyond now s b Hp Hb Hlt). fields.
    eexists. split; [reflexivity|]. split; [reflexivity|].
    unfold Stopped, Drag.stopAudio, Drag.drawWaveform. fields.
    rewrite Hb. fields. repeat split; reflexivity.
Qed.

Lemma knob_progress_tick_witness :
  exists s1,
    Drag.updateProgress 120 demoDragPlaying = Ok s1 /\
    Knob.updateProgress 120 demoDragPlaying = Ok s1 /\
    Stopped s1 /\
    seekSliderValue s1 = duration demoBuffer /\
    currentTimeDisplay s1 = formatTime (duration demoBuffer) /\
    forall later, Drag.updateProgress later s1 = Ok s1 /\
                  Knob.updateProgress later s1 = Ok s1.
Proof.
  destruct (knob_progress_tick 120 demoDragPlaying demoBuffer) as (_ & H).
  - reflexivity.
  - reflexivity.
  - apply H. vm_compute. reflexivity.
Defined.

(** ** The progress tick of the slider variant *)

(** X13.  A progress tick of the slider variant while playing, for a
    buffer of positive duration.  Short of the end it redraws the
    waveform and one playhead, inside the canvas, at
    [position / duration * width], shows the position in the label and
    leaves the anchor alone.  Past the end it stops the engine, having
    drawn the waveform twice and two playheads, at 0 and at the right
    edge; the label shows the duration and every later tick does
    nothing. *)
Theorem Scrub_progress_tick (now : Q) (s : State) (b : AudioBuffer) :
  isPlaying s = true ->
  audioBuffer s = Some b ->
  0 < duration b ->
  let cmds := waveformCmds (channelData0 b) (canvasWidth s) (canvasHeight s) in
  let playhead := fun pos =>
    [FillStyle "#fff";
     FillRect (pos / duration b * ofNat (canvasWidth s)) 0 2
              (ofNat (canvasHeight s))] in
  (0 <= clockPosition now s <= duration b ->
   exists s1,
     Scrub.updateProgress now s = Ok s1 /\
     ctx s1 = (ctx s ++ cmds) ++ playhead (clockPosition now s) /\
     0 <= clockPosition now s / duration b * ofNat (canvasWidth s)
       <= ofNat (canvasWidth s) /\
     currentTimeDisplay s1 = formatTime (clockPosition now s) /\
     isPlaying s1 = true /\ pausedAt s1 = pausedAt s /\
     startTime s1 = startTime s /\ playbackRate s1 = playbackRate s) /\
  (duration b < clockPosition now s ->
   exists s1,
     Scrub.updateProgress now s = Ok s1 /\
     Stopped s1 /\
     ctx s1 = (((ctx s ++ cmds) ++ cmds) ++ playhead 0) ++ playhead (duration b) /\
     currentTimeDisplay s1 = formatTime (duration b) /\
     forall later, Scrub.updateProgress later s1 = Ok s1).
Proof.
  intros Hp Hb Hd cmds playhead. split.
  - intros [H0 Hle].
    unfold Scrub.updateProgress, Scrub.drawWaveform, Scrub.drawWaveform_with.
    rewrite Hp, Hb. cbn [negb].
    rewrite (Scrub_getCurrentTime_within now _ b) by (fields; assumption).
    fields. rewrite Hb.
    eexists. split; [reflexivity|]. fields.
    split; [reflexivity|]. split; [|repeat split; auto].
    assert (W : 0 <= ofNat (canvasWidth s)).
    { unfold ofNat. rewrite <- (Zle_Qle 0). lia. }
    apply click_inside_canvas; [exact Hd|split; assumption|exact W].
  - intro Hlt.
    unfold Scrub.updateProgress, Scrub.drawWaveform, Scrub.drawWaveform_with.
    rewrite Hp, Hb. cbn [negb].
    unfold Scrub.getCurrentTime at 1.
    rewrite Scrub_getCurrentTime_unfold. fields. rewrite Hp, Hb. cbn [negb].
    apply Qgtb_true in Hlt.
    change (Qgtb (clockPosition now
                    (draw (waveformCmds (channelData0 b) (canvasWidth s)
                             (canvasHeight s)) s))
                 (duration b) = true) in Hlt.
    rewrite Hlt.
    unfold Scrub.stopAudio_with, Scrub.drawWaveform_with. fields. rewrite Hb.
    rewrite Scrub_getCurrentTime_fuel_idle by reflexivity. fields. rewrite Hb.
    fields. rewrite Hb.
    eexists. split; [reflexivity|]. unfold Stopped. fields.
    repeat split; reflexivity.
Qed.

Lemma Scrub_progress_tick_witness :
  exists s1,
    Scrub.updateProgress 104 demoRated = Ok s1 /\
    isPlaying s1 = true /\
    currentTimeDisplay s1 = formatTime (clockPosition 104 demoRated).
Proof.
  destruct (Scrub_progress_tick 104 demoRated demoBuffer) as [H _].
  - reflexivity.
  - reflexivity.
  - vm_compute. reflexivity.
  - destruct H as (s1 & E & _ & _ & D & P & _).
    + split; vm_compute; discriminate.
    + exists s1. auto.
Defined.


(** ** The rotary knob *)

Lemma knobStep_in_range (min max : Q) (ev : KnobEvent) (k : KnobState) :
  min <= max ->
  min <= currentValue k <= max ->
  indicatorAngle k = knobAngle (currentValue k) min max ->
  min <= currentValue (fst (knobStep min max ev k)) <= max /\
  indicatorAngle (fst (knobStep min max ev k))
    = knobAngle (currentValue (fst (knobStep min max ev k))) min max /\
  match snd (knobStep min max ev k) with
  | Some v => min <= v <= max /\ v = currentValue (fst (knobStep min max ev k))
  | None => currentValue (fst (knobStep min max ev k)) = currentValue k
  end.
Proof.
  intros Hmm Hk Ha. destruct ev as [y dis|y|]; cbn [knobStep].
  - destruct dis; cbn [fst snd currentValue indicatorAngle]; auto.
  - destruct (isDragging k); cbn [negb fst snd currentValue indicatorAngle]; auto.
    split; [apply knobValue_in_range; exact Hmm|]. split; [reflexivity|].
    split; [apply knobValue_in_range; exact Hmm|reflexivity].
  - destruct (isDragging k); cbn [fst snd currentValue indicatorAngle]; auto.
Qed.

Lemma knobRun_invariant (min max : Q) (evs : list KnobEvent) :
  min <= max ->
  forall k,
    min <= currentValue k <= max ->
    indicatorAngle k = knobAngle (currentValue k) min max ->
    min <= currentValue (fst (knobRun min max evs k)) <= max /\
    indicatorAngle (fst (knobRun min max evs k))
      = knobAngle (currentValue (fst (knobRun min max evs k))) min max /\
    Forall (fun v => min <= v <= max) (snd (knobRun min max evs k)) /\
    currentValue (fst (knobRun min max evs k))
      = last (snd (knobRun min max evs k)) (currentValue k).
Proof.
  intro Hmm. induction evs as [|ev evs IH]; intros k Hk Ha.
  - cbn. auto.
  - cbn [knobRun].
    destruct (knobStep_in_range min max ev k Hmm Hk Ha) as (S1 & S2 & S3).
    destruct (knobStep min max ev k) as [k1 out] eqn:Es.
    cbn [fst snd] in S1, S2, S3.
    destruct (IH k1 S1 S2) as (I1 & I2 & I3 & I4).
    destruct (knobRun min max evs k1) as [k2 outs] eqn:Er.
    cbn [fst snd] in *.
    split; [exact I1|]. split; [exact I2|].
    destruct out as [v|].
    + destruct S3 as [Sv ->].
      split; [constructor; assumption|].
      rewrite I4. symmetry. apply last_cons_default.
    + split; [exact I3|]. rewrite I4, S3. reflexivity.
Qed.

(** X14.  A knob set up with [min <= initialValue <= max], under any
    sequence of mouse events: its value stays in [min, max], every value
    it hands to [onChange] lies in [min, max], and its value is always
    the last one handed out (the initial one if none was). *)
Theorem knob_stays_in_range (min max initialValue : Q) (evs : list KnobEvent) :
  min <= max ->
  min <= initialValue <= max ->
  let k0 := fst (setupKnob min max initialValue) in
  min <= currentValue (fst (knobRun min max evs k0)) <= max /\
  Forall (fun v => min <= v <= max) (snd (knobRun min max evs k0)) /\
  currentValue (fst (knobRun min max evs k0))
    = last (snd (knobRun min max evs k0)) initialValue.
Proof.
  intros Hmm Hi k0.
  destruct (knobRun_invariant min max evs Hmm k0 Hi eq_refl) as (H1 & _ & H3 & H4).
  auto.
Qed.

Lemma knob_stays_in_range_witness :
  let k0 := fst (setupKnob 0 1 0) in
  let evs := [MouseDown 300 false; MouseMove 250; MouseMove 20; MouseUp; MouseMove 500] in
  0 <= currentValue (fst (knobRun 0 1 evs k0)) <= 1 /\
  Forall (fun v => 0 <= v <= 1) (snd (knobRun 0 1 evs k0)) /\
  currentValue (fst (knobRun 0 1 evs k0)) = last (snd (knobRun 0 1 evs k0)) 0.
Proof.
  apply (knob_stays_in_range 0 1 0).
  - vm_compute. discriminate.
  - split; vm_compute; discriminate.
Defined.

Lemma knobAngle_in_range (min max v : Q) :
  min < max -> min <= v <= max -> -(135) <= knobAngle v min max <= 135.
Proof.
  intros Hmm [H0 H1]. unfold knobAngle.
  assert (P0 : 0 <= (v - min) / (max - min)) by (apply Qle_shift_div_l; lra).
  assert (P1 : (v - min) / (max - min) <= 1) by (apply Qle_shift_div_r; lra).
  lra.
Qed.

(** X15.  For [min < max] the indicator always shows the angle of the
    current value, between -135 and 135 degrees; [min] sits at -135 and
    [max] at 135. *)
Theorem knob_indicator_follows_value (min max initialValue : Q)
    (evs : list KnobEvent) :
  min < max ->
  min <= initialValue <= max ->
  let k := fst (knobRun min max evs (fst (setupKnob min max initialValue))) in
  indicatorAngle k = knobAngle (currentValue k) min max /\
  -(135) <= indicatorAngle k <= 135 /\
  knobAngle min min max == -(135) /\
  knobAngle max min max == 135.
Proof.
  intros Hmm Hi k.
  assert (Hle : min <= max) by lra.
  destruct (knobRun_invariant min max evs Hle
              (fst (setupKnob min max initialValue)) Hi eq_refl) as (H1 & H2 & _).
  fold k in H1, H2.
  split; [exact H2|]. split.
  - rewrite H2. apply knobAngle_in_range; assumption.
  - unfold knobAngle. split; field; lra.
Qed.

Lemma knob_indicator_follows_value_witness :
  let k := fst (knobRun (1 # 2) (3 # 2) [MouseDown 300 false; MouseMove 250]
                  (fst (setupKnob (1 # 2) (3 # 2) 1))) in
  indicatorAngle k = knobAngle (currentValue k) (1 # 2) (3 # 2) /\
  -(135) <= indicatorAngle k <= 135 /\
  knobAngle (1 # 2) (1 # 2) (3 # 2) == -(135) /\
  knobAngle (3 # 2) (1 # 2) (3 # 2) == 135.
Proof.
  apply (knob_indicator_follows_value (1 # 2) (3 # 2) 1).
  - vm_compute. reflexivity.
  - split; vm_compute; discriminate.
Defined.

(** X16.  One drag, from a start value in range: 200 pixels or more
    upwards gives [max], 200 or more downwards gives [min], and in
    between the value moves by 0.5 percent of the range per pixel. *)
Theorem knob_full_travel (min max startValue deltaY : Q) :
  min <= max ->
  min <= startValue <= max ->
  (200 <= deltaY -> knobValue min max startValue deltaY == max) /\
  (deltaY <= -(200) -> knobValue min max startValue deltaY == min) /\
  (min <= startValue + deltaY * ((5 # 1000) * (max - min)) <= max ->
   knobValue min max startValue deltaY
     = startValue + deltaY * ((5 # 1000) * (max - min))).
Proof.
  intros Hmm [H0 H1]. unfold knobValue.
  set (v := startValue + deltaY * ((5 # 1000) * (max - min))).
  repeat split.
  - intro Hd.
    assert (0 <= (deltaY - 200) * ((5 # 1000) * (max - min)))
      by (apply Qmult_le_0_compat; lra).
    assert (Hv : max <= v) by (unfold v; lra).
    destruct (Qltb v min) eqn:E1; [apply Qltb_true in E1; lra|].
    destruct (Qgtb v max) eqn:E2; [reflexivity|].
    apply Qgtb_false in E2. lra.
  - intro Hd.
    assert (0 <= (-(200) - deltaY) * ((5 # 1000) * (max - min)))
      by (apply Qmult_le_0_compat; lra).
    assert (Hv : v <= min) by (unfold v; lra).
    destruct (Qltb v min) eqn:E1.
    + destruct (Qgtb min max) eqn:E2; [apply Qgtb_true in E2; lra|reflexivity].
    + apply Qltb_false in E1.
      destruct (Qgtb v max) eqn:E2; [apply Qgtb_true in E2; lra|lra].
  - intros [Hl Hu].
    apply Qltb_false in Hl. apply Qgtb_false in Hu. rewrite Hl, Hu. reflexivity.
Qed.

Lemma knob_full_travel_witness :
  (200 <= 250 -> knobValue (1 # 2) (3 # 2) 1 250 == 3 # 2) /\
  (250 <= -(200) -> knobValue (1 # 2) (3 # 2) 1 250 == 1 # 2) /\
  ((1 # 2) <= 1 + 250 * ((5 # 1000) * ((3 # 2) - (1 # 2))) <= 3 # 2 ->
   knobValue (1 # 2) (3 # 2) 1 250
     = 1 + 250 * ((5 # 1000) * ((3 # 2) - (1 # 2)))).
Proof.
  apply (knob_full_travel (1 # 2) (3 # 2) 1 250).
  - vm_compute. discriminate.
  - split; vm_compute; discriminate.
Defined.

Lemma Drag_handleSpeedChange_total (now r : Q) (s : State) :
  (isPlaying s = true -> audioBuffer s <> None) ->
  exists s', Drag.handleSpeedChange now r s = Ok s' /\ playbackRate s' = r /\
             (isPlaying s' = true -> audioBuffer s' <> None).
Proof.
  intro W. destruct (isPlaying s) eqn:Hp.
  - destruct (audioBuffer s) as [b|] eqn:Hb; [|exfalso; apply W; reflexivity].
    destruct (Drag_handleSpeedChange_playing now r s b Hp Hb)
      as (p & s0 & s1 & _ & E & _ & _ & Hr & Hb1 & _).
    exists s1. split; [exact E|]. split; [exact Hr|]. intros _. congruence.
  - unfold Drag.handleSpeedChange. rewrite Hp. fields.
    eexists; split; [reflexivity|]. fields. split; [reflexivity|].
    intro H. congruence.
Qed.

(** X17.  The speed knob wired to [handleSpeedChange] as the knob
    variants do: starting from a rate in [0.5, 1.5], whatever mouse
    events arrive and whenever, playing or not, every rate change
    succeeds and the stored playback rate stays in [0.5, 1.5]. *)
Theorem speed_knob_keeps_rate_in_range (evs : list (Q * KnobEvent))
    (k : KnobState) (s : State) :
  (isPlaying s = true -> audioBuffer s <> None) ->
  1 # 2 <= playbackRate s <= 3 # 2 ->
  exists k' s',
    speedKnobRun evs (k, s) = Ok (k', s') /\
    1 # 2 <= playbackRate s' <= 3 # 2.
Proof.
  revert k s. induction evs as [|[now e] evs IH]; intros k s W Hr.
  - exists k, s. split; [reflexivity|exact Hr].
  - cbn [speedKnobRun speedKnobStep].
    destruct (knobStep (1 # 2) (3 # 2) e k) as [k1 out] eqn:Es.
    destruct out as [val|].
    + assert (Hv : 1 # 2 <= val <= 3 # 2).
      { destruct e as [y dis|y|]; cbn [knobStep] in Es.
        - destruct dis; discriminate.
        - destruct (isDragging k); cbn [negb] in Es; [|discriminate].
          injection Es as _ <-. apply knobValue_in_range. vm_compute. discriminate.
        - destruct (isDragging k); discriminate. }
      destruct (Drag_handleSpeedChange_total now val s W) as (s1 & E & R & W1).
      rewrite E. cbn [bind]. apply IH; [exact W1|]. rewrite R. exact Hv.
    + cbn [bind]. apply IH; assumption.
Qed.

Lemma speed_knob_keeps_rate_in_range_witness :
  exists k' s',
    speedKnobRun [(101, MouseDown 300 false); (102, MouseMove 0); (103, MouseUp)]
                 (fst (setupKnob (1 # 2) (3 # 2) 1), demoDragPlaying) = Ok (k', s') /\
    1 # 2 <= playbackRate s' <= 3 # 2.
Proof.
  apply speed_knob_keeps_rate_in_range.
  - intros _. discriminate.
  - split; vm_compute; discriminate.
Defined.

(** ** The time label *)

Lemma Qfloor_unique (x : Q) (z : Z) :
  inject_Z z <= x -> x < inject_Z (z + 1) -> Qfloor x = z.
Proof.
  intros Hl Hu.
  assert (F1 := Qfloor_le x). assert (F2 := Qlt_floor x).
  assert (A : inject_Z (Qfloor x) < inject_Z (z + 1)) by lra.
  assert (B : inject_Z z < inject_Z (Qfloor x + 1)) by lra.
  rewrite <- Zlt_Qlt in A, B. lia.
Qed.

(** X18.  For a non-negative number of seconds [formatTime] yields
    minutes [m >= 0] and seconds [0 <= s < 60] with
    [60 * m + s = floor seconds]. *)
Theorem formatTime_splits_seconds (seconds : Q) :
  0 <= seconds ->
  let m := fst (formatTime seconds) in
  let s := snd (formatTime seconds) in
  (0 <= m)%Z /\ (0 <= s < 60)%Z /\ (60 * m + s = Qfloor seconds)%Z.
Proof.
  intros Hs. unfold formatTime. cbn [fst snd].
  set (m := Qfloor (seconds / 60)).
  assert (Hq : 0 <= seconds / 60) by (apply Qle_shift_div_l; lra).
  assert (Hm0 : (0 <= m)%Z).
  { unfold m. change 0%Z with (Qfloor 0). apply Qfloor_resp_le. exact Hq. }
  assert (M1 : inject_Z m <= seconds / 60) by apply Qfloor_le.
  assert (M2 : seconds / 60 < inject_Z (m + 1)) by apply Qlt_floor.
  assert (Hd : seconds / 60 * 60 == seconds) by (field).
  rewrite inject_Z_plus in M2. change (inject_Z 1) with 1 in M2.
  assert (R : jsRem seconds 60 = seconds - 60 * inject_Z m).
  { unfold jsRem, Qtrunc. apply Qle_bool_iff in Hq. rewrite Hq. reflexivity. }
  rewrite R.
  assert (L0 : 0 <= seconds - 60 * inject_Z m) by lra.
  assert (L1 : seconds - 60 * inject_Z m < 60) by lra.
  set (s := Qfloor (seconds - 60 * inject_Z m)).
  assert (S1 : inject_Z s <= seconds - 60 * inject_Z m) by apply Qfloor_le.
  assert (S2 : seconds - 60 * inject_Z m < inject_Z (s + 1)) by apply Qlt_floor.
  assert (Hs0 : (0 <= s)%Z).
  { unfold s. change 0%Z with (Qfloor 0). apply Qfloor_resp_le. exact L0. }
  assert (Hs1 : (s < 60)%Z).
  { rewrite Zlt_Qlt. change (inject_Z 60) with 60. lra. }
  split; [exact Hm0|]. split; [lia|].
  symmetry. apply Qfloor_unique.
  - rewrite inject_Z_plus, inject_Z_mult. change (inject_Z 60) with 60. lra.
  - rewrite !inject_Z_plus, inject_Z_mult in *. change (inject_Z 60) with 60.
    change (inject_Z 1) with 1 in *. lra.
Qed.

Lemma formatTime_splits_seconds_witness :
  let m := fst (formatTime (1234 # 10)) in
  let s := snd (formatTime (1234 # 10)) in
  (0 <= m)%Z /\ (0 <= s < 60)%Z /\ (60 * m + s = Qfloor (1234 # 10))%Z.
Proof.
  apply formatTime_splits_seconds. vm_compute. discriminate.
Defined.

(** ** More on the envelope *)

Lemma amp_doubles (height : nat) :
  0 <= ofNat height / 2 /\ 2 * (ofNat height / 2) == ofNat height.
Proof.
  assert (H : 0 <= ofNat height) by (unfold ofNat; rewrite <- (Zle_Qle 0); lia).
  split; [apply Qle_shift_div_l; lra|field].
Qed.

(** X19.  For samples in [-1, 1], both ends of every column's line lie
    between 0 and the canvas height, and a column whose window holds a
    sample is drawn from its lower to its upper value. *)
Theorem columns_stay_on_canvas (data : list Q) (width height i : nat) :
  (forall x, In x data -> -(1) <= x <= 1) ->
  (i < width)%nat ->
  exists y0 y1,
    nth_error (waveformPath data width height) (2 * i) = Some (MoveTo (ofNat i) y0) /\
    nth_error (waveformPath data width height) (2 * i + 1) = Some (LineTo (ofNat i) y1) /\
    0 <= y0 <= ofNat height /\ 0 <= y1 <= ofNat height /\
    (window data (stepOf (List.length data) width) i <> [] -> y0 <= y1).
Proof.
  intros Hrange Hi.
  destruct (waveformPath_column data width height i Hi) as [P1 P2].
  cbn zeta in P1, P2.
  set (step := stepOf (List.length data) width) in *.
  set (mm := columnMinMax data step i) in *.
  set (amp := ofNat height / 2) in *.
  exists ((1 + fst mm) * amp), ((1 + snd mm) * amp).
  split; [exact P1|]. split; [exact P2|].
  destruct (column_records data step i) as ((A1 & A2 & A3) & (B1 & B2 & B3)).
  fold mm in A1, A2, A3, B1, B2, B3.
  destruct (amp_doubles height) as [Ha Hh]. fold amp in Ha, Hh.
  assert (F0 : -(1) <= fst mm).
  { destruct A3 as [->|A3]; [lra|].
    apply (window_incl data step i) in A3. apply Hrange in A3. lra. }
  assert (S1 : snd mm <= 1).
  { destruct B3 as [->|B3]; [lra|].
    apply (window_incl data step i) in B3. apply Hrange in B3. lra. }
  assert (M1 : 0 <= (1 + fst mm) * amp) by (apply Qmult_le_0_compat; lra).
  assert (M2 : 0 <= (1 - fst mm) * amp) by (apply Qmult_le_0_compat; lra).
  assert (M3 : 0 <= (1 + snd mm) * amp) by (apply Qmult_le_0_compat; lra).
  assert (M4 : 0 <= (1 - snd mm) * amp) by (apply Qmult_le_0_compat; lra).
  split; [lra|]. split; [lra|].
  intro Hne.
  destruct (window data step i) as [|x0 rest] eqn:Ew; [congruence|].
  assert (Hx : fst mm <= x0 <= snd mm)
    by (split; [apply A2|apply B2]; left; reflexivity).
  assert (0 <= (snd mm - fst mm) * amp) by (apply Qmult_le_0_compat; lra).
  lra.
Qed.

Lemma columns_stay_on_canvas_witness :
  exists y0 y1,
    nth_error (waveformPath (channelData0 demoBuffer) 4 100) (2 * 1)
      = Some (MoveTo (ofNat 1) y0) /\
    nth_error (waveformPath (channelData0 demoBuffer) 4 100) (2 * 1 + 1)
      = Some (LineTo (ofNat 1) y1) /\
    0 <= y0 <= ofNat 100 /\ 0 <= y1 <= ofNat 100 /\
    (window (channelData0 demoBuffer)
            (stepOf (List.length (channelData0 demoBuffer)) 4) 1 <> [] -> y0 <= y1).
Proof.
  apply columns_stay_on_canvas.
  - intros x H. cbn [In channelData0 demoBuffer] in H.
    repeat (destruct H as [<-|H]; [split; vm_compute; discriminate|]).
    destruct H.
  - lia.
Defined.

(** X20.  A column whose window starts at or after the end of the
    samples (more columns than samples, or an empty buffer) is drawn
    over the whole height, from [height] to 0. *)
Theorem columns_past_the_data (data : list Q) (width height i : nat) :
  (i < width)%nat ->
  (List.length data <= i * stepOf (List.length data) width)%nat ->
  exists y0 y1,
    nth_error (waveformPath data width height) (2 * i) = Some (MoveTo (ofNat i) y0) /\
    nth_error (waveformPath data width height) (2 * i + 1) = Some (LineTo (ofNat i) y1) /\
    y0 == ofNat height /\ y1 == 0.
Proof.
  intros Hi Hpast.
  destruct (waveformPath_column data width height i Hi) as [P1 P2].
  cbn zeta in P1, P2.
  set (step := stepOf (List.length data) width) in *.
  assert (Hw : window data step i = []).
  { unfold window. rewrite skipn_all2 by exact Hpast. apply firstn_nil. }
  rewrite (column_of_empty_window data step i Hw) in P1, P2.
  cbn [fst snd] in P1, P2.
  do 2 eexists. split; [exact P1|]. split; [exact P2|].
  destruct (amp_doubles height) as [_ Hh]. split; [lra|ring].
Qed.

Lemma columns_past_the_data_witness :
  exists y0 y1,
    nth_error (waveformPath [] 3 100) (2 * 2) = Some (MoveTo (ofNat 2) y0) /\
    nth_error (waveformPath [] 3 100) (2 * 2 + 1) = Some (LineTo (ofNat 2) y1) /\
    y0 == ofNat 100 /\ y1 == 0.
Proof.
  apply columns_past_the_data.
  - lia.
  - vm_compute. lia.
Defined.
